(** * ExampleHTTPServer: the request parser and the response serializer

    A shallow embedding of [src/HttpServer.hh] (namespace [SimpleHttpServer]):
    the status table, the [Request] and [Response] classes, the byte-driven
    request parser [httpRequestParse], [sendBytes] and the per-connection
    handler [serverRequestHandler].

    Conventions of the model.
    - A [std::string] is a [string]; a [char] is an [ascii] (a byte 0..255).
      [isdigit] is taken on the C locale: true exactly on '0'..'9'.
    - An [int] is a [Z]; the parser only ever stores 0..9 in the two version
      fields, and the status code is whatever the application stores.
    - [std::map<std::string,std::string>] is a finite map whose iteration
      visits the keys in ascending [std::less<std::string>] order, that is,
      byte-wise lexicographic order: [FMapList] over [String_as_OT], whose
      [elements] is the iteration of the range-based [for].
    - A [const char *] that may be [NULL] is an [option string]. Appending a
      null pointer to a [std::string] has no defined behaviour in C++; every
      operation that can reach such an append returns a [result], and
      [Undefined] stands for that outcome.
    - The socket is a record: the chunks the kernel took so far, and a script
      of the values the coming [send(2)] calls return. *)

From Stdlib Require Import String Ascii ZArith List Bool Lia.
From Stdlib Require Import OrderedTypeEx FMapList FMapFacts DecimalString.
Import ListNotations.
Open Scope string_scope.

Module StrMap := FMapList.Make String_as_OT.
Module StrMapFacts := FMapFacts.WFacts_fun String_as_OT StrMap.

(** ** Characters and strings *)

Definition SP : ascii := " "%char.
Definition LF : ascii := "010"%char.
Definition CR : ascii := "013"%char.
Definition DQUOTE : ascii := "034"%char.
Definition SQUOTE : ascii := "039"%char.
Definition CRLF : string := String CR (String LF "").

(** [isdigit(c) != 0]. *)
Definition isdigit (c : ascii) : bool :=
  ((48 <=? N_of_ascii c) && (N_of_ascii c <=? 57))%N.

(** [(int)c - '0']. *)
Definition digit_value (c : ascii) : Z := Z.of_N (N_of_ascii c) - 48.

(** [str += c] for a single character. *)
Definition push_back (s : string) (c : ascii) : string := s ++ String c "".

(** [std::to_string] on an [int] and on a [size_t]. *)
Definition to_string (n : Z) : string := NilZero.string_of_int (Z.to_int n).
Definition to_string_size (n : nat) : string := NilZero.string_of_uint (Nat.to_uint n).

Fixpoint string_forallb (p : ascii -> bool) (s : string) : bool :=
  match s with
  | "" => true
  | String c s' => p c && string_forallb p s'
  end.

Fixpoint string_filter (p : ascii -> bool) (s : string) : string :=
  match s with
  | "" => ""
  | String c s' => if p c then String c (string_filter p s') else string_filter p s'
  end.

Fixpoint string_map (f : ascii -> ascii) (s : string) : string :=
  match s with
  | "" => ""
  | String c s' => String (f c) (string_map f s')
  end.

(** One iteration of the loop of [strtolower]: [if (c >= 'A' && c <= 'Z') c += 32]. *)
Definition tolower_char (c : ascii) : ascii :=
  if ((65 <=? N_of_ascii c) && (N_of_ascii c <=? 90))%N
  then ascii_of_N (N_of_ascii c + 32)
  else c.

(** [strtolower(str)]: the string [str] holds afterwards. *)
Definition strtolower (str : string) : string := string_map tolower_char str.

(** ** Outcomes of code that may leave defined behaviour *)

Inductive result (A : Type) : Type :=
| Ok (a : A)
| Undefined.
Arguments Ok {A} a.
Arguments Undefined {A}.

Definition bind {A B : Type} (r : result A) (k : A -> result B) : result B :=
  match r with
  | Ok a => k a
  | Undefined => Undefined
  end.

Notation "x <- r ;; k" := (bind r (fun x => k))
  (at level 61, r at next level, right associativity).

(** [s += p] for a [const char *p]: defined only when [p] is not null. *)
Definition append_cstr (s : string) (p : option string) : result string :=
  match p with
  | Some m => Ok (s ++ m)
  | None => Undefined
  end.

(** ** The status table *)

(** The array [msg] of [httpStatusMessage], without its [{0, NULL}] sentinel. *)
Definition msg : list (Z * string) :=
  [ (200, "Ok");
    (301, "Moved Permanently");
    (302, "Found");
    (304, "Not Modified");
    (307, "Temporary Redirect");
    (400, "Bad Request");
    (401, "Unauthorized");
    (403, "Forbidden");
    (404, "Not Found");
    (405, "Method Not Allowed");
    (411, "Length Required");
    (413, "Request Entity Too Large");
    (414, "Request-URI Too Long");
    (429, "Too Many Requests");
    (500, "Internal Server Error");
    (502, "Bad Gateway");
    (503, "Service Unavailable");
    (504, "Gateway Timeout");
    (505, "HTTP Version Not Supported") ]%Z.

(** The scan of the table: the first entry with the code, [NULL] at the sentinel. *)
Fixpoint status_scan (table : list (Z * string)) (httpStatusCode : Z) : option string :=
  match table with
  | [] => None
  | (code, message) :: rest =>
      if (code =? httpStatusCode)%Z then Some message
      else status_scan rest httpStatusCode
  end.

Definition httpStatusMessage (httpStatusCode : Z) : option string :=
  status_scan msg httpStatusCode.

(** ** Request *)

Module Request.

(** The HTTP fields of [class Request]; [sock] and [addr] are not read by
    the parser or the serializer. *)
Record t : Type := mk {
  hasError : bool;
  method : string;
  url : string;
  queryString : string;
  httpMajorVersion : Z;
  httpMinorVersion : Z;
  headers : StrMap.t string
}.

(** [new Request]: the default member initializers. *)
Definition fresh : t :=
  {| hasError := false; method := ""; url := ""; queryString := "";
     httpMajorVersion := 0; httpMinorVersion := 0;
     headers := StrMap.empty string |}.

Definition set_hasError (r : t) (b : bool) : t :=
  mk b (method r) (url r) (queryString r)
     (httpMajorVersion r) (httpMinorVersion r) (headers r).
Definition set_method (r : t) (s : string) : t :=
  mk (hasError r) s (url r) (queryString r)
     (httpMajorVersion r) (httpMinorVersion r) (headers r).
Definition set_url (r : t) (s : string) : t :=
  mk (hasError r) (method r) s (queryString r)
     (httpMajorVersion r) (httpMinorVersion r) (headers r).
Definition set_queryString (r : t) (s : string) : t :=
  mk (hasError r) (method r) (url r) s
     (httpMajorVersion r) (httpMinorVersion r) (headers r).
Definition set_httpMajorVersion (r : t) (n : Z) : t :=
  mk (hasError r) (method r) (url r) (queryString r)
     n (httpMinorVersion r) (headers r).
Definition set_httpMinorVersion (r : t) (n : Z) : t :=
  mk (hasError r) (method r) (url r) (queryString r)
     (httpMajorVersion r) n (headers r).
Definition set_headers (r : t) (h : StrMap.t string) : t :=
  mk (hasError r) (method r) (url r) (queryString r)
     (httpMajorVersion r) (httpMinorVersion r) h.

End Request.

(** [m[k]] of [std::map]: the value at [k], after a default (empty) entry was
    inserted when [k] was absent. *)
Definition map_index (m : StrMap.t string) (k : string) : StrMap.t string * string :=
  match StrMap.find k m with
  | Some v => (m, v)
  | None => (StrMap.add k "" m, "")
  end.

(** ** The request parser *)

Inductive parser_state : Type :=
| PARSER_STATE_METHOD
| PARSER_STATE_URL
| PARSER_STATE_URL_QS
| PARSER_STATE_PROTOCOL
| PARSER_STATE_MAJOR
| PARSER_STATE_MINOR
| PARSER_STATE_HEADERS.

(** The locals of [httpRequestParse] that live across iterations. *)
Record locals : Type := mkLocals {
  tmp : string;
  state : parser_state;
  isKey : bool
}.

Definition locals_init : locals :=
  {| tmp := ""; state := PARSER_STATE_METHOD; isKey := true |}.

(** The filter of the URL and URL_QS states:
    [c == '<' || c == '>' || c == 34 || c == 39]. *)
Definition xss_char (c : ascii) : bool :=
  (c =? "<")%char || (c =? ">")%char || (c =? DQUOTE)%char || (c =? SQUOTE)%char.

(** The body of the [for] loop, at the character [c = buffer[i]]. *)
Definition parse_step (c : ascii) (st : Request.t * locals) : Request.t * locals :=
  let (req, l) := st in
  match state l with
  | PARSER_STATE_METHOD =>
      if (c =? SP)%char
      then (Request.set_method req (tmp l), mkLocals "" PARSER_STATE_URL (isKey l))
      else (req, mkLocals (push_back (tmp l) c) (state l) (isKey l))
  | PARSER_STATE_URL =>
      if (c =? SP)%char || (c =? "?")%char
      then (Request.set_url req (tmp l),
            mkLocals ""
              (if (c =? "?")%char then PARSER_STATE_URL_QS else PARSER_STATE_PROTOCOL)
              (isKey l))
      else if xss_char c then (req, l)
      else (req, mkLocals (push_back (tmp l) c) (state l) (isKey l))
  | PARSER_STATE_URL_QS =>
      if (c =? SP)%char
      then (Request.set_queryString req (tmp l),
            mkLocals "" PARSER_STATE_PROTOCOL (isKey l))
      else if xss_char c then (req, l)
      else (req, mkLocals (push_back (tmp l) c) (state l) (isKey l))
  | PARSER_STATE_PROTOCOL =>
      if (c =? "/")%char
      then ((if negb (tmp l =? "HTTP") then Request.set_hasError req true else req),
            mkLocals "" PARSER_STATE_MAJOR (isKey l))
      else (req, mkLocals (push_back (tmp l) c) (state l) (isKey l))
  | PARSER_STATE_MAJOR =>
      if isdigit c
      then (Request.set_httpMajorVersion req (digit_value c), l)
      else if (c =? ".")%char
      then (req, mkLocals (tmp l) PARSER_STATE_MINOR (isKey l))
      else (req, l)
  | PARSER_STATE_MINOR =>
      let req1 :=
        if isdigit c then Request.set_httpMinorVersion req (digit_value c) else req in
      if (c =? LF)%char
      then (req1, mkLocals (tmp l) PARSER_STATE_HEADERS (isKey l))
      else (req1, l)
  | PARSER_STATE_HEADERS =>
      if (c =? LF)%char
      then (req, mkLocals "" (state l) true)
      else if isKey l && (c =? ":")%char
      then let key := strtolower (tmp l) in
           (Request.set_headers req (StrMap.add key "" (Request.headers req)),
            mkLocals key (state l) false)
      else if isKey l
      then (req, mkLocals (push_back (tmp l) c) (state l) (isKey l))
      else
        if (c =? CR)%char then (req, l)
        else
          let (h1, v1) := map_index (Request.headers req) (tmp l) in
          if (String.length v1 =? 0)%nat && (c =? SP)%char
          then (Request.set_headers req h1, l)
          else
            let (h2, v2) := map_index h1 (tmp l) in
            (Request.set_headers req (StrMap.add (tmp l) (push_back v2 c) h2), l)
  end.

(** The [for] loop over [buffer[0 .. length)]. *)
Fixpoint parse_loop (buffer : string) (st : Request.t * locals) : Request.t * locals :=
  match buffer with
  | "" => st
  | String c rest => parse_loop rest (parse_step c st)
  end.

(** The check after the loop: [if (req->httpMajorVersion != 1) req->hasError = true]. *)
Definition parse_finish (req : Request.t) : Request.t :=
  if negb (Request.httpMajorVersion req =? 1)%Z
  then Request.set_hasError req true
  else req.

(** [httpRequestParse(req, buffer, length)], with [buffer] the [length] bytes
    read: the value returned and the request afterwards. *)
Definition httpRequestParse (req : Request.t) (buffer : string) : bool * Request.t :=
  (true, parse_finish (fst (parse_loop buffer (req, locals_init)))).

(** The request [httpRequestParse] leaves behind. *)
Definition parsed (req : Request.t) (buffer : string) : Request.t :=
  snd (httpRequestParse req buffer).

(** ** The socket *)

(** What the kernel took so far ([wire], oldest chunk first), what the coming
    [send(2)] calls return ([script]; past its end the kernel takes whatever
    it is given), and whether [close] was called. *)
Record Sock : Type := mkSock {
  wire : list string;
  script : list Z;
  closed : bool
}.

(** [send(sock, p, length, 0)]: a scripted value below 1 transmits nothing;
    otherwise at most [length] bytes are taken from the front of [p]. *)
Definition sys_send (s : Sock) (p : string) : Sock * Z :=
  match script s with
  | [] => (mkSock (wire s ++ [p]) [] (closed s), Z.of_nat (String.length p))
  | r :: rest =>
      if (r <? 1)%Z then (mkSock (wire s) rest (closed s), r)
      else
        let k := Nat.min (Z.to_nat r) (String.length p) in
        (mkSock (wire s ++ [substring 0 k p]) rest (closed s), Z.of_nat k)
  end.

(** The [while (length > 0)] loop of [sendBytes]; [n] is the local [n], [p] the
    bytes still to send. Every iteration that continues shortens [p], so
    [String.length p] iterations are enough. *)
Fixpoint sendBytes_loop (fuel : nat) (s : Sock) (p : string) (n : Z) : Sock * Z :=
  match fuel with
  | O => (s, n)
  | S fuel' =>
      if (String.length p =? 0)%nat then (s, n)
      else
        let (s1, n1) := sys_send s p in
        if (n1 <? 1)%Z then (s1, n1)
        else
          let k := Z.to_nat n1 in
          sendBytes_loop fuel' s1 (substring k (String.length p - k) p) n1
  end.

Definition sendBytes (s : Sock) (buffer : string) : Sock * Z :=
  sendBytes_loop (String.length buffer) s buffer 0%Z.

(** ** Response *)

Module Response.

Record t : Type := mk {
  statusCode : Z;
  headers : StrMap.t string;
  body : string
}.

(** [new Response]. *)
Definition fresh : t :=
  {| statusCode := 200; headers := StrMap.empty string; body := "" |}.

Definition set_statusCode (r : t) (n : Z) : t := mk n (headers r) (body r).
Definition set_body (r : t) (b : string) : t := mk (statusCode r) (headers r) b.

(** [header(key, value)]: [this->headers[key] = value]. *)
Definition header (r : t) (key value : string) : t :=
  mk (statusCode r) (StrMap.add key value (headers r)) (body r).

(** [errorPage()]. *)
Definition errorPage (r : t) : result t :=
  let r := header r "Content-Type" "text/html" in
  let r := header r "Cache-Control" "no-cache, no-store, must-revalidate" in
  let b := "<!doctype html><html lang=" ++ String DQUOTE "en" ++ String DQUOTE ">" in
  let b := b ++ "<head><title>Error</title></head>" in
  let b := b ++ "<body><h1>Error " in
  let b := b ++ to_string (statusCode r) in
  let b := b ++ "</h1><hr><p>" in
  b <- append_cstr b (httpStatusMessage (statusCode r)) ;;
  Ok (set_body r (b ++ "</p></body></html>")).

(** The first two statements of [send]: the two headers it writes itself. *)
Definition send_set_headers (r : t) : t :=
  let r := header r "Content-Length" (to_string_size (String.length (body r))) in
  header r "Conection" "close".

(** The status line of [send]. *)
Definition status_line (r : t) (req : Request.t) : result string :=
  let head := "HTTP/1." in
  let head :=
    push_back head (if (Request.httpMinorVersion req =? 0)%Z then "0" else "1")%char in
  let head := head ++ " " in
  let head := head ++ to_string (statusCode r) in
  let head := head ++ " " in
  head <- append_cstr head (httpStatusMessage (statusCode r)) ;;
  Ok (head ++ CRLF).

(** The body of the range-based [for] of [send], at the entry [h]. *)
Definition header_line (head : string) (h : string * string) : string :=
  (((head ++ fst h) ++ ": ") ++ snd h) ++ CRLF.

(** The string [head] of [send], once the two headers are set. *)
Definition send_head (r : t) (req : Request.t) : result string :=
  head <- status_line r req ;;
  let head := fold_left header_line (StrMap.elements (headers r)) head in
  Ok (head ++ CRLF).

(** [write(buffer, length)]. *)
Definition write (s : Sock) (buffer : string) : Sock * Z := sendBytes s buffer.

(** [send()]: the response and the socket afterwards, and the value returned. *)
Definition send (r : t) (req : Request.t) (s : Sock) : result (t * Sock * bool) :=
  let r := send_set_headers r in
  head <- send_head r req ;;
  let (s1, sendLen) := write s head in
  if (sendLen <? 0)%Z then Ok (r, s1, false)
  else
    let (s2, sendLen) := write s1 (body r) in
    if (sendLen <? 0)%Z then Ok (r, s2, false)
    else Ok (r, s2, true).

End Response.

(** ** The connection handler *)

(** The application callback: it may change the request and the response it
    is handed and use the socket. The boolean it returns is dropped by the
    handler. *)
Definition callback_t : Type :=
  Request.t -> Response.t -> Sock -> result (Request.t * Response.t * Sock).

(** What a run of the handler leaves: the socket, the request and the
    response as they were when released, and whether the callback ran. *)
Record handled : Type := mkHandled {
  h_sock : Sock;
  h_req : Request.t;
  h_res : Response.t;
  h_called : bool
}.

Definition close (s : Sock) : Sock := mkSock (wire s) (script s) true.

(** [serverRequestHandler]. [received] is the outcome of [recv]: [None] for a
    negative value, [Some data] for the [recvLen = length data] bytes read. *)
Definition serverRequestHandler (onRequestCallback : option callback_t)
    (received : option string) (sock : Sock) : result handled :=
  let req := Request.fresh in
  let res := Response.fresh in
  match received with
  | None => Ok (mkHandled (close sock) req res false)
  | Some data =>
      if (String.length data =? 0)%nat
      then Ok (mkHandled (close sock) req res false)
      else
        let (rc, req) := httpRequestParse req data in
        if negb rc then Ok (mkHandled (close sock) req res false)
        else if Request.hasError req
        then
          let res := Response.set_statusCode res 400 in
          res <- Response.errorPage res ;;
          out <- Response.send res req sock ;;
          let '(res, sock, _) := out in
          Ok (mkHandled (close sock) req res false)
        else
          match onRequestCallback with
          | None => Ok (mkHandled (close sock) req res false)
          | Some cb =>
              out <- cb req res sock ;;
              let '(req, res, sock) := out in
              Ok (mkHandled (close sock) req res true)
          end
  end.

(** The handler of [example.cc]. *)
Definition example_callback : callback_t := fun req res sock =>
  let res := Response.header res "Content-Type" "text/plain" in
  let res := Response.header res "Server" "ExampleHTTPServer" in
  let res := Response.header res "Cache-Control" "no-cache, no-store, must-revalidate" in
  res <-
    (if (Request.url req =? "/") || (Request.url req =? "/index.cpp")
     then
       let b := "Your Request:" ++ String LF "" in
       let b := b ++ "method: " in
       let b := b ++ Request.method req in
       let b := b ++ String LF "" in
       let b := b ++ "http version: " in
       let b := b ++ to_string (Request.httpMajorVersion req) in
       let b := b ++ "." in
       let b := b ++ to_string (Request.httpMinorVersion req) in
       let b := b ++ String LF "" in
       let b := b ++ "url: " in
       let b := b ++ Request.url req in
       let b := b ++ String LF "" in
       let b :=
         if negb (Request.queryString req =? "")
         then ((b ++ "query string: ") ++ Request.queryString req) ++ String LF ""
         else b in
       let b := b ++ "headers:" ++ String LF "" in
       let b :=
         fold_left (fun b h => (((b ++ fst h) ++ ": ") ++ snd h) ++ String LF "")
           (StrMap.elements (Request.headers req)) b in
       Ok (Response.set_body res b)
     else Response.errorPage (Response.set_statusCode res 404)) ;;
  out <- Response.send res req sock ;;
  let '(res, sock, _) := out in
  Ok (req, res, sock).

(** ** Vocabulary of the statements *)

(** [c] is not the character [d]. *)
Definition not_char (d : ascii) (c : ascii) : bool := negb (c =? d)%char.

(** A character that does not end the URL state: neither a space nor '?'. *)
Definition url_char (c : ascii) : bool := not_char SP c && not_char "?" c.

(** A character the URL and URL_QS states keep. *)
Definition kept_char (c : ascii) : bool := negb (xss_char c).

(** None of '<', '>', the double quote and the single quote occurs in [s]. *)
Definition clean (s : string) : bool := string_forallb kept_char s.

(** [s] has no letter 'A'..'Z' left to lower. *)
Definition lowered (s : string) : Prop := strtolower s = s.

(** The header names of a map, in iteration order. *)
Definition keys (m : StrMap.t string) : list string := map fst (StrMap.elements m).

(** Past the MAJOR state the major version is final; in the HEADERS state the
    minor version is final too. *)
Definition past_major (l : locals) : Prop :=
  state l = PARSER_STATE_MINOR \/ state l = PARSER_STATE_HEADERS.

(** The URL filter as an invariant of the loop. *)
Definition url_inv (st : Request.t * locals) : Prop :=
  clean (Request.url (fst st)) = true /\
  clean (Request.queryString (fst st)) = true /\
  (state (snd st) = PARSER_STATE_URL \/ state (snd st) = PARSER_STATE_URL_QS ->
   clean (tmp (snd st)) = true).

(** Lower-cased header names as an invariant of the loop. *)
Definition keys_inv (st : Request.t * locals) : Prop :=
  (forall k, StrMap.In k (Request.headers (fst st)) -> lowered k) /\
  (isKey (snd st) = false ->
   state (snd st) = PARSER_STATE_HEADERS /\ lowered (tmp (snd st))).

(** The response of the handler to a request in error: [Response.fresh] with
    the status 400, after [errorPage]. *)
Definition body400 : string :=
  "<!doctype html><html lang=" ++ String DQUOTE "en" ++ String DQUOTE ">"
  ++ "<head><title>Error</title></head>"
  ++ "<body><h1>Error 400</h1><hr><p>Bad Request</p></body></html>".

Definition page400 : Response.t :=
  Response.mk 400
    (StrMap.add "Cache-Control" "no-cache, no-store, must-revalidate"
       (StrMap.add "Content-Type" "text/html" (StrMap.empty string)))
    body400.

(** The header block [send] writes for [page400]. *)
Definition head400 (req : Request.t) : string :=
  (if (Request.httpMinorVersion req =? 0)%Z then "HTTP/1.0" else "HTTP/1.1")
  ++ " 400 Bad Request" ++ CRLF
  ++ "Cache-Control: no-cache, no-store, must-revalidate" ++ CRLF
  ++ "Conection: close" ++ CRLF
  ++ "Content-Length: 124" ++ CRLF
  ++ "Content-Type: text/html" ++ CRLF
  ++ CRLF.

(** The header lines of a list of entries, in the order of the list. *)
Definition header_block (hs : list (string * string)) : string :=
  fold_left Response.header_line hs "".

(** The application's calls of [header], in order, on a response. *)
Definition apply_headers (writes : list (string * string)) (r : Response.t) : Response.t :=
  fold_left (fun r kv => Response.header r (fst kv) (snd kv)) writes r.

(** The headers as the specification words them: a list in the order of
    insertion, where a write to a name already present replaces its value in
    place and a write to a new name goes to the end. *)
Fixpoint insert_in_order (key value : string) (hs : list (string * string))
  : list (string * string) :=
  match hs with
  | [] => [(key, value)]
  | (k, v) :: rest =>
      if (k =? key)%string then (k, value) :: rest
      else (k, v) :: insert_in_order key value rest
  end.

Definition insertion_order (writes : list (string * string)) : list (string * string) :=
  fold_left (fun hs kv => insert_in_order (fst kv) (snd kv) hs) writes [].

(** The two writes [send] makes itself, after those of the application. *)
Definition send_writes (r : Response.t) : list (string * string) :=
  [("Content-Length", to_string_size (String.length (Response.body r)));
   ("Conection", "close")].

(** Byte-wise lexicographic order on header names. *)
Definition name_lt (a b : string) : Prop := (a ?= b)%string = Lt.

(** ** Vocabulary of the further properties *)

(** An upper-case ASCII letter: the test of [strtolower]. *)
Definition is_upper (c : ascii) : bool :=
  ((65 <=? N_of_ascii c) && (N_of_ascii c <=? 90))%N.

(** The bytes of a list of chunks, in order. *)
Definition concat_chunks (chunks : list string) : string :=
  fold_right String.append "" chunks.

(** The value the last write to [k] in a list of writes gave it, if any. *)
Fixpoint last_write (writes : list (string * string)) (k : string) : option string :=
  match writes with
  | [] => None
  | (k', v) :: rest =>
      match last_write rest k with
      | Some v' => Some v'
      | None => if (k' =? k)%string then Some v else None
      end
  end.

(** What the value mode of the HEADERS state makes of the characters [raw]
    when the value so far is [v]: a carriage return is skipped, a space is
    skipped while the value is empty, any other character is appended. *)
Fixpoint value_acc (v : string) (raw : string) : string :=
  match raw with
  | "" => v
  | String c raw' =>
      if (c =? CR)%char then value_acc v raw'
      else if (String.length v =? 0)%nat && (c =? SP)%char then value_acc v raw'
      else value_acc (push_back v c) raw'
  end.

(** [s] without its leading spaces. *)
Fixpoint drop_spaces (s : string) : string :=
  match s with
  | "" => ""
  | String c s' => if (c =? SP)%char then drop_spaces s' else s
  end.

(** A header value as a reader sees it: the characters after the colon,
    without carriage returns and without the leading spaces. *)
Definition header_value (raw : string) : string :=
  drop_spaces (string_filter (not_char CR) raw).

(** From the PROTOCOL state on, the request line's three tokens are final. *)
Definition past_url (l : locals) : Prop :=
  state l = PARSER_STATE_PROTOCOL \/ state l = PARSER_STATE_MAJOR \/
  state l = PARSER_STATE_MINOR \/ state l = PARSER_STATE_HEADERS.

(** From the MAJOR state on, the loop no longer writes the error flag. *)
Definition past_protocol (l : locals) : Prop :=
  state l = PARSER_STATE_MAJOR \/ state l = PARSER_STATE_MINOR \/
  state l = PARSER_STATE_HEADERS.

(** Both version fields hold one decimal digit. *)
Definition version_in_range (r : Request.t) : Prop :=
  (0 <= Request.httpMajorVersion r <= 9)%Z /\ (0 <= Request.httpMinorVersion r <= 9)%Z.

(** The body [errorPage] renders for a status code and its reason phrase. *)
Definition error_body (code : Z) (reason : string) : string :=
  "<!doctype html><html lang=" ++ String DQUOTE "en" ++ String DQUOTE ">"
  ++ "<head><title>Error</title></head>"
  ++ "<body><h1>Error " ++ to_string code ++ "</h1><hr><p>"
  ++ reason ++ "</p></body></html>".

(** * Properties *)

(** ** Strings *)

Lemma append_nil_r (s : string) : s ++ "" = s.
Proof. induction s as [|c s IH]; simpl; [reflexivity | now rewrite IH]. Qed.

Lemma append_assoc (a b c : string) : (a ++ b) ++ c = a ++ (b ++ c).
Proof. induction a as [|x a IH]; simpl; [reflexivity | now rewrite IH]. Qed.

Lemma push_back_append (s : string) (c : ascii) (t : string) :
  push_back s c ++ t = s ++ String c t.
Proof. unfold push_back. now rewrite append_assoc. Qed.

Lemma string_forallb_app (p : ascii -> bool) (a b : string) :
  string_forallb p (a ++ b) = string_forallb p a && string_forallb p b.
Proof.
  induction a as [|x a IH]; simpl; [reflexivity|].
  now rewrite IH, andb_assoc.
Qed.

Lemma string_forallb_filter (p : ascii -> bool) (s : string) :
  string_forallb p (string_filter p s) = true.
Proof.
  induction s as [|c s IH]; simpl; [reflexivity|].
  destruct (p c) eqn:E; simpl; [now rewrite E|assumption].
Qed.

Lemma string_map_app (f : ascii -> ascii) (a b : string) :
  string_map f (a ++ b) = string_map f a ++ string_map f b.
Proof. induction a as [|x a IH]; simpl; [reflexivity | now rewrite IH]. Qed.

Lemma tolower_char_idem (c : ascii) : tolower_char (tolower_char c) = tolower_char c.
Proof.
  destruct c as [[] [] [] [] [] [] [] []]; reflexivity.
Qed.

Lemma strtolower_idem (s : string) : strtolower (strtolower s) = strtolower s.
Proof.
  unfold strtolower.
  induction s as [|c s IH]; simpl; [reflexivity|].
  now rewrite tolower_char_idem, IH.
Qed.

(** ** The loop of the parser *)

Arguments parse_step : simpl never.

Lemma parse_loop_app (a b : string) (st : Request.t * locals) :
  parse_loop (a ++ b) st = parse_loop b (parse_loop a st).
Proof.
  revert st. induction a as [|c a IH]; intros st; simpl; [reflexivity | apply IH].
Qed.

(** Case analysis on one step, by the state and the tests the step makes. *)
Ltac step_cases c l :=
  unfold parse_step;
  destruct (state l) eqn:?; simpl;
  repeat match goal with
  | |- context [if ?b then _ else _] => destruct b eqn:?; simpl
  | |- context [let (_, _) := ?p in _] => destruct p eqn:?; simpl
  end.

(** The error flag is never cleared. *)
Lemma parse_step_hasError (c : ascii) (req : Request.t) (l : locals) :
  Request.hasError req = true ->
  Request.hasError (fst (parse_step c (req, l))) = true.
Proof.
  intros H. step_cases c l; auto.
Qed.

Lemma parse_loop_hasError (buffer : string) (st : Request.t * locals) :
  Request.hasError (fst st) = true ->
  Request.hasError (fst (parse_loop buffer st)) = true.
Proof.
  revert st. induction buffer as [|c rest IH]; intros [req l] H; simpl; [exact H|].
  apply IH. now apply parse_step_hasError.
Qed.

Lemma parse_finish_hasError (req : Request.t) :
  Request.hasError req = true \/ Request.httpMajorVersion req <> 1%Z ->
  Request.hasError (parse_finish req) = true.
Proof.
  unfold parse_finish. intros [H | H].
  - destruct (negb _); simpl; auto.
  - destruct (Z.eqb_spec (Request.httpMajorVersion req) 1); [contradiction|reflexivity].
Qed.

(** The check after the loop touches the error flag only. *)
Lemma parse_finish_fields (req : Request.t) :
  Request.method (parse_finish req) = Request.method req /\
  Request.url (parse_finish req) = Request.url req /\
  Request.queryString (parse_finish req) = Request.queryString req /\
  Request.httpMajorVersion (parse_finish req) = Request.httpMajorVersion req /\
  Request.httpMinorVersion (parse_finish req) = Request.httpMinorVersion req /\
  Request.headers (parse_finish req) = Request.headers req.
Proof. unfold parse_finish. destruct (negb _); simpl; auto 10. Qed.

(** *** Runs inside one state *)

Lemma run_METHOD (m : string) (req : Request.t) (l : locals) :
  state l = PARSER_STATE_METHOD ->
  string_forallb (not_char SP) m = true ->
  parse_loop m (req, l) = (req, mkLocals (tmp l ++ m) PARSER_STATE_METHOD (isKey l)).
Proof.
  revert l. induction m as [|c m IH]; intros l Hs Hm; simpl.
  - rewrite append_nil_r. destruct l; simpl in *; now subst.
  - simpl in Hm. apply andb_true_iff in Hm as [Hc Hm].
    unfold not_char in Hc. apply negb_true_iff in Hc.
    unfold parse_step. rewrite Hs, Hc.
    rewrite IH by (simpl; auto). simpl. now rewrite push_back_append.
Qed.

Lemma run_URL (u : string) (req : Request.t) (l : locals) :
  state l = PARSER_STATE_URL ->
  string_forallb url_char u = true ->
  parse_loop u (req, l) =
  (req, mkLocals (tmp l ++ string_filter kept_char u)
          PARSER_STATE_URL (isKey l)).
Proof.
  revert l. induction u as [|c u IH]; intros l Hs Hu; simpl.
  - rewrite append_nil_r. destruct l; simpl in *; now subst.
  - simpl in Hu. apply andb_true_iff in Hu as [Hc Hu].
    unfold url_char, not_char in Hc. apply andb_true_iff in Hc as [H1 H2].
    apply negb_true_iff in H1, H2.
    unfold parse_step. rewrite Hs, H1, H2. simpl.
    replace (kept_char c) with (negb (xss_char c)) by reflexivity.
    destruct (xss_char c) eqn:Hx; simpl.
    + now apply IH.
    + rewrite IH by (simpl; auto). simpl. now rewrite push_back_append.
Qed.

Lemma run_URL_QS (q : string) (req : Request.t) (l : locals) :
  state l = PARSER_STATE_URL_QS ->
  string_forallb (not_char SP) q = true ->
  parse_loop q (req, l) =
  (req, mkLocals (tmp l ++ string_filter kept_char q)
          PARSER_STATE_URL_QS (isKey l)).
Proof.
  revert l. induction q as [|c q IH]; intros l Hs Hq; simpl.
  - rewrite append_nil_r. destruct l; simpl in *; now subst.
  - simpl in Hq. apply andb_true_iff in Hq as [Hc Hq].
    unfold not_char in Hc. apply negb_true_iff in Hc.
    unfold parse_step. rewrite Hs, Hc. simpl.
    replace (kept_char c) with (negb (xss_char c)) by reflexivity.
    destruct (xss_char c) eqn:Hx; simpl.
    + now apply IH.
    + rewrite IH by (simpl; auto). simpl. now rewrite push_back_append.
Qed.

Lemma run_PROTOCOL (tok : string) (req : Request.t) (l : locals) :
  state l = PARSER_STATE_PROTOCOL ->
  string_forallb (not_char "/") tok = true ->
  parse_loop tok (req, l) =
  (req, mkLocals (tmp l ++ tok) PARSER_STATE_PROTOCOL (isKey l)).
Proof.
  revert l. induction tok as [|c tok IH]; intros l Hs Ht; simpl.
  - rewrite append_nil_r. destruct l; simpl in *; now subst.
  - simpl in Ht. apply andb_true_iff in Ht as [Hc Ht].
    unfold not_char in Hc. apply negb_true_iff in Hc.
    unfold parse_step. rewrite Hs, Hc.
    rewrite IH by (simpl; auto). simpl. now rewrite push_back_append.
Qed.

Lemma run_MAJOR (cs : string) (req : Request.t) (l : locals) :
  state l = PARSER_STATE_MAJOR ->
  string_forallb (not_char ".") cs = true ->
  snd (parse_loop cs (req, l)) = l /\
  (string_forallb (fun c => negb (isdigit c)) cs = true ->
   fst (parse_loop cs (req, l)) = req).
Proof.
  revert req. induction cs as [|c cs IH]; intros req Hs Hcs; simpl; [auto|].
  simpl in Hcs. apply andb_true_iff in Hcs as [Hc Hcs].
  unfold not_char in Hc. apply negb_true_iff in Hc.
  unfold parse_step. rewrite Hs, Hc.
  destruct (isdigit c) eqn:Hd; simpl.
  - split; [now apply IH | discriminate].
  - split; [now apply IH | intros Hn; now apply IH].
Qed.

Lemma run_MINOR (cs : string) (req : Request.t) (l : locals) :
  state l = PARSER_STATE_MINOR ->
  string_forallb (not_char LF) cs = true ->
  snd (parse_loop cs (req, l)) = l /\
  (string_forallb (fun c => negb (isdigit c)) cs = true ->
   fst (parse_loop cs (req, l)) = req).
Proof.
  revert req. induction cs as [|c cs IH]; intros req Hs Hcs; simpl; [auto|].
  simpl in Hcs. apply andb_true_iff in Hcs as [Hc Hcs].
  unfold not_char in Hc. apply negb_true_iff in Hc.
  unfold parse_step. rewrite Hs, Hc.
  destruct (isdigit c) eqn:Hd; simpl.
  - split; [now apply IH | discriminate].
  - split; [now apply IH | intros Hn; now apply IH].
Qed.

(** *** What later states leave alone *)

Lemma parse_step_past_major (c : ascii) (req : Request.t) (l : locals) :
  past_major l ->
  past_major (snd (parse_step c (req, l))) /\
  Request.httpMajorVersion (fst (parse_step c (req, l))) = Request.httpMajorVersion req.
Proof.
  unfold past_major. intros [H | H]; unfold parse_step; rewrite H; simpl;
    repeat match goal with
    | |- context [if ?b then _ else _] => destruct b eqn:?; simpl
    | |- context [let (_, _) := ?p in _] => destruct p eqn:?; simpl
    end; auto.
Qed.

Lemma parse_loop_past_major (buffer : string) (req : Request.t) (l : locals) :
  past_major l ->
  Request.httpMajorVersion (fst (parse_loop buffer (req, l))) =
  Request.httpMajorVersion req.
Proof.
  revert req l. induction buffer as [|c rest IH]; intros req l H; simpl; [reflexivity|].
  destruct (parse_step_past_major c req l H) as [H1 H2].
  destruct (parse_step c (req, l)) as [req1 l1]. simpl in *.
  now rewrite (IH req1 l1 H1).
Qed.

Lemma parse_step_in_headers (c : ascii) (req : Request.t) (l : locals) :
  state l = PARSER_STATE_HEADERS ->
  state (snd (parse_step c (req, l))) = PARSER_STATE_HEADERS /\
  Request.httpMinorVersion (fst (parse_step c (req, l))) = Request.httpMinorVersion req.
Proof.
  intros H; unfold parse_step; rewrite H; simpl;
    repeat match goal with
    | |- context [if ?b then _ else _] => destruct b eqn:?; simpl
    | |- context [let (_, _) := ?p in _] => destruct p eqn:?; simpl
    end; auto.
Qed.

Lemma parse_loop_in_headers (buffer : string) (req : Request.t) (l : locals) :
  state l = PARSER_STATE_HEADERS ->
  Request.httpMinorVersion (fst (parse_loop buffer (req, l))) =
  Request.httpMinorVersion req.
Proof.
  revert req l. induction buffer as [|c rest IH]; intros req l H; simpl; [reflexivity|].
  destruct (parse_step_in_headers c req l H) as [H1 H2].
  destruct (parse_step c (req, l)) as [req1 l1]. simpl in *.
  now rewrite (IH req1 l1 H1).
Qed.

(** *** The URL filter as an invariant of the loop *)

Lemma clean_push_back (s : string) (c : ascii) :
  clean s = true -> xss_char c = false -> clean (push_back s c) = true.
Proof.
  unfold clean, push_back. intros Hs Hc. rewrite string_forallb_app, Hs. simpl.
  unfold kept_char. now rewrite Hc.
Qed.

Lemma parse_step_url_inv (c : ascii) (st : Request.t * locals) :
  url_inv st -> url_inv (parse_step c st).
Proof.
  destruct st as [req l]. unfold url_inv. simpl. intros (Hu & Hq & Ht).
  step_cases c l; repeat split; auto;
    try (intros [X | X]; discriminate X);
    try (intros _; apply clean_push_back; auto);
    try (intros [X | X]; congruence).
Qed.

Lemma parse_loop_url_inv (buffer : string) (st : Request.t * locals) :
  url_inv st -> url_inv (parse_loop buffer st).
Proof.
  revert st. induction buffer as [|c rest IH]; intros st H; simpl; [exact H|].
  apply IH. now apply parse_step_url_inv.
Qed.

(** *** Lower-cased header names as an invariant of the loop *)

Lemma map_index_keys (m : StrMap.t string) (k : string) :
  lowered k ->
  (forall k', StrMap.In k' m -> lowered k') ->
  forall k', StrMap.In k' (fst (map_index m k)) -> lowered k'.
Proof.
  intros Hk Hm k'. unfold map_index.
  destruct (StrMap.find k m); simpl; [apply Hm|].
  rewrite StrMapFacts.add_in_iff. intros [E | H]; [now subst | now apply Hm].
Qed.

Lemma parse_step_keys_inv (c : ascii) (st : Request.t * locals) :
  keys_inv st -> keys_inv (parse_step c st).
Proof.
  destruct st as [req l]. unfold keys_inv. simpl. intros (Hm & Hk).
  unfold parse_step.
  destruct (state l) eqn:Hs; simpl;
    try (repeat match goal with
         | |- context [if ?b then _ else _] => destruct b eqn:?; simpl
         end;
         (split; [exact Hm | intros X; destruct (Hk X) as [Y _]; congruence])).
  destruct (c =? LF)%char; simpl; [split; [exact Hm | discriminate]|].
  destruct (isKey l) eqn:Hi; simpl.
  - destruct (c =? ":")%char; simpl.
    + split.
      * intros k. rewrite StrMapFacts.add_in_iff. intros [E | H]; [|now apply Hm].
        subst k. apply strtolower_idem.
      * intros _. split; [reflexivity | apply strtolower_idem].
    + split; [exact Hm | discriminate].
  - destruct (Hk eq_refl) as [_ Hlow].
    destruct (c =? CR)%char; simpl; [split; [exact Hm | now rewrite Hi]|].
    pose proof (map_index_keys (Request.headers req) (tmp l) Hlow Hm) as H1.
    destruct (map_index (Request.headers req) (tmp l)) as [h1 v1]. simpl in H1.
    destruct ((String.length v1 =? 0)%nat && (c =? SP)%char); simpl.
    + split; [exact H1 | now rewrite Hi].
    + pose proof (map_index_keys h1 (tmp l) Hlow H1) as H2.
      destruct (map_index h1 (tmp l)) as [h2 v2]. simpl in *.
      split; [|now rewrite Hi].
      intros k. rewrite StrMapFacts.add_in_iff. intros [E | H]; [now subst | now apply H2].
Qed.

Lemma parse_loop_keys_inv (buffer : string) (st : Request.t * locals) :
  keys_inv st -> keys_inv (parse_loop buffer st).
Proof.
  revert st. induction buffer as [|c rest IH]; intros st H; simpl; [exact H|].
  apply IH. now apply parse_step_keys_inv.
Qed.

Lemma run_HEADERS_key (k : string) (req : Request.t) (l : locals) :
  state l = PARSER_STATE_HEADERS ->
  isKey l = true ->
  string_forallb (fun c => not_char LF c && not_char ":" c) k = true ->
  parse_loop k (req, l) = (req, mkLocals (tmp l ++ k) PARSER_STATE_HEADERS true).
Proof.
  revert l. induction k as [|c k IH]; intros l Hs Hi Hk; simpl.
  - rewrite append_nil_r. destruct l; simpl in *; now subst.
  - simpl in Hk. apply andb_true_iff in Hk as [Hc Hk].
    apply andb_true_iff in Hc as [H1 H2].
    unfold not_char in H1, H2. apply negb_true_iff in H1, H2.
    unfold parse_step. rewrite Hs, H1, Hi, H2. simpl.
    rewrite IH by (simpl; auto). simpl. now rewrite push_back_append.
Qed.

(** *** The request line, token by token *)

Lemma after_method (req : Request.t) (m : string) :
  string_forallb (not_char SP) m = true ->
  parse_loop (m ++ String SP "") (req, locals_init) =
  (Request.set_method req m, mkLocals "" PARSER_STATE_URL true).
Proof.
  intros Hm. rewrite parse_loop_app, (run_METHOD m) by (auto; reflexivity).
  reflexivity.
Qed.

Lemma after_url (req : Request.t) (u : string) (d : ascii) (l : locals) :
  state l = PARSER_STATE_URL ->
  string_forallb url_char u = true ->
  url_char d = false ->
  parse_loop (u ++ String d "") (req, l) =
  (Request.set_url req (tmp l ++ string_filter kept_char u),
   mkLocals ""
     (if (d =? "?")%char then PARSER_STATE_URL_QS else PARSER_STATE_PROTOCOL)
     (isKey l)).
Proof.
  intros Hs Hu Hd. rewrite parse_loop_app, (run_URL u) by auto.
  simpl. unfold parse_step. simpl.
  unfold url_char, not_char in Hd.
  destruct (d =? SP)%char, (d =? "?")%char; simpl in *; try discriminate; reflexivity.
Qed.

Lemma after_query (req : Request.t) (q : string) (l : locals) :
  state l = PARSER_STATE_URL_QS ->
  string_forallb (not_char SP) q = true ->
  parse_loop (q ++ String SP "") (req, l) =
  (Request.set_queryString req (tmp l ++ string_filter kept_char q),
   mkLocals "" PARSER_STATE_PROTOCOL (isKey l)).
Proof.
  intros Hs Hq. rewrite parse_loop_app, (run_URL_QS q) by auto. reflexivity.
Qed.

Lemma string_forallb_In (p : ascii -> bool) (s : string) (c : ascii) :
  string_forallb p s = true -> In c (list_ascii_of_string s) -> p c = true.
Proof.
  induction s as [|x s IH]; simpl; [tauto|].
  intros H [E | Hin]; apply andb_true_iff in H as [Hx Hs]; [now subst | auto].
Qed.

Lemma clean_not_In (s : string) (c : ascii) :
  clean s = true -> xss_char c = true -> ~ In c (list_ascii_of_string s).
Proof.
  intros Hs Hc Hin. apply (string_forallb_In _ _ _ Hs) in Hin.
  unfold kept_char in Hin. now rewrite Hc in Hin.
Qed.

(** A request whose URL and query string are free of the four characters
    stays so through any buffer. *)
Lemma parsed_clean (req : Request.t) (buffer : string) :
  clean (Request.url req) = true ->
  clean (Request.queryString req) = true ->
  clean (Request.url (parsed req buffer)) = true /\
  clean (Request.queryString (parsed req buffer)) = true.
Proof.
  intros Hu Hq.
  assert (H0 : url_inv (req, locals_init)).
  { repeat split; auto. }
  destruct (parse_loop_url_inv buffer _ H0) as (H1 & H2 & _).
  unfold parsed, httpRequestParse. simpl.
  destruct (parse_finish_fields (fst (parse_loop buffer (req, locals_init))))
    as (_ & Eu & Eq & _).
  now rewrite Eu, Eq.
Qed.

(** ** The claims on the parser *)

(** C5. Parsing the one buffer "GET /x HTTP/1.1\r\nHost: a\r\n\r\n" into a
    fresh request returns true and leaves method GET, url /x, version 1.1,
    the single header host: a, an empty query string and no error. *)
Theorem parse_simple_get :
  let buffer := "GET /x HTTP/1.1" ++ CRLF ++ "Host: a" ++ CRLF ++ CRLF in
  let r := snd (httpRequestParse Request.fresh buffer) in
  fst (httpRequestParse Request.fresh buffer) = true /\
  Request.method r = "GET" /\
  Request.url r = "/x" /\
  Request.queryString r = "" /\
  Request.httpMajorVersion r = 1%Z /\
  Request.httpMinorVersion r = 1%Z /\
  StrMap.elements (Request.headers r) = [("host", "a")] /\
  Request.hasError r = false.
Proof. vm_compute. repeat split. Qed.

(** C6. Whatever the buffer, the url and the queryString parsed into a fresh
    request hold none of '<', '>', the double quote and the single quote;
    the path "/<script>" parses to "/script", and the four characters are
    dropped from a query string in the same way. *)
Theorem url_and_query_drop_markup_chars :
  (forall buffer : string,
     let r := parsed Request.fresh buffer in
     ~ In "<"%char (list_ascii_of_string (Request.url r)) /\
     ~ In ">"%char (list_ascii_of_string (Request.url r)) /\
     ~ In DQUOTE (list_ascii_of_string (Request.url r)) /\
     ~ In SQUOTE (list_ascii_of_string (Request.url r)) /\
     ~ In "<"%char (list_ascii_of_string (Request.queryString r)) /\
     ~ In ">"%char (list_ascii_of_string (Request.queryString r)) /\
     ~ In DQUOTE (list_ascii_of_string (Request.queryString r)) /\
     ~ In SQUOTE (list_ascii_of_string (Request.queryString r))) /\
  Request.url (parsed Request.fresh ("GET /<script> HTTP/1.1" ++ CRLF ++ CRLF))
    = "/script" /\
  Request.queryString
    (parsed Request.fresh
       ("GET /p?a=<b>&c=" ++ String DQUOTE "d" ++ String DQUOTE "&e="
          ++ String SQUOTE "f" ++ String SQUOTE " HTTP/1.1" ++ CRLF ++ CRLF))
    = "a=b&c=d&e=f".
Proof.
  split; [|split; reflexivity].
  intros buffer r.
  destruct (parsed_clean Request.fresh buffer eq_refl eq_refl) as [Hu Hq].
  fold r in Hu, Hq.
  repeat split; apply clean_not_In; auto.
Qed.

(** C10. method, url and queryString are assigned at their delimiter and not
    before: a buffer that ends inside the method leaves method as it was, one
    that ends inside the path leaves url as it was, one that ends inside the
    query leaves queryString as it was; the same tokens followed by their
    delimiter (a space, or '?' after the path) are assigned, the path and
    the query without the four filtered characters. *)
Theorem token_is_assigned_at_its_delimiter
    (req : Request.t) (m u q : string) :
  string_forallb (not_char SP) m = true ->
  string_forallb url_char u = true ->
  string_forallb (not_char SP) q = true ->
  Request.method (parsed req m) = Request.method req /\
  Request.method (parsed req (m ++ String SP "")) = m /\
  Request.url (parsed req (m ++ String SP u)) = Request.url req /\
  Request.url (parsed req (m ++ String SP (u ++ String SP "")))
    = string_filter kept_char u /\
  Request.url (parsed req (m ++ String SP (u ++ String "?" "")))
    = string_filter kept_char u /\
  Request.queryString (parsed req (m ++ String SP (u ++ String "?" q)))
    = Request.queryString req /\
  Request.queryString (parsed req (m ++ String SP (u ++ String "?" (q ++ String SP ""))))
    = string_filter kept_char q.
Proof.
  intros Hm Hu Hq.
  assert (Em : forall s, m ++ String SP s = (m ++ String SP "") ++ s).
  { intros s. now rewrite append_assoc. }
  assert (Eu : forall d s, u ++ String d s = (u ++ String d "") ++ s).
  { intros d s. now rewrite append_assoc. }
  unfold parsed, httpRequestParse; simpl.
  repeat split.
  - destruct (parse_finish_fields (fst (parse_loop m (req, locals_init)))) as (E & _).
    rewrite E, (run_METHOD m) by (auto; reflexivity). reflexivity.
  - destruct (parse_finish_fields
                (fst (parse_loop (m ++ String SP "") (req, locals_init)))) as (E & _).
    rewrite E, after_method by auto. reflexivity.
  - destruct (parse_finish_fields
                (fst (parse_loop (m ++ String SP u) (req, locals_init)))) as (_ & E & _).
    rewrite E, Em, parse_loop_app, after_method, (run_URL u) by auto. reflexivity.
  - destruct (parse_finish_fields
                (fst (parse_loop (m ++ String SP (u ++ String SP ""))
                        (req, locals_init)))) as (_ & E & _).
    rewrite E, Em, parse_loop_app, after_method, after_url by auto. reflexivity.
  - destruct (parse_finish_fields
                (fst (parse_loop (m ++ String SP (u ++ String "?" ""))
                        (req, locals_init)))) as (_ & E & _).
    rewrite E, Em, parse_loop_app, after_method, after_url by auto. reflexivity.
  - destruct (parse_finish_fields
                (fst (parse_loop (m ++ String SP (u ++ String "?" q))
                        (req, locals_init)))) as (_ & _ & E & _).
    rewrite E, Em, parse_loop_app, after_method, Eu, parse_loop_app, after_url by auto.
    simpl. rewrite (run_URL_QS q) by auto. reflexivity.
  - destruct (parse_finish_fields
                (fst (parse_loop (m ++ String SP (u ++ String "?" (q ++ String SP "")))
                        (req, locals_init)))) as (_ & _ & E & _).
    rewrite E, Em, parse_loop_app, after_method, Eu, parse_loop_app, after_url by auto.
    simpl. rewrite after_query by auto. reflexivity.
Qed.

(** The buffer "GET", and the buffers "GET /a<b" and "GET /a<b?x='y", on a
    fresh request: every field is still empty where the token was cut. *)
Lemma token_is_assigned_at_its_delimiter_witness :
  (string_forallb (not_char SP) "GET" = true /\
   string_forallb url_char "/a<b" = true /\
   string_forallb (not_char SP) ("x=" ++ String SQUOTE "y") = true) /\
  Request.method (parsed Request.fresh "GET") = "" /\
  Request.method (parsed Request.fresh "GET ") = "GET" /\
  Request.url (parsed Request.fresh "GET /a<b") = "" /\
  Request.url (parsed Request.fresh "GET /a<b ") = "/ab" /\
  Request.url (parsed Request.fresh "GET /a<b?") = "/ab" /\
  Request.queryString (parsed Request.fresh ("GET /a<b?x=" ++ String SQUOTE "y")) = "" /\
  Request.queryString (parsed Request.fresh ("GET /a<b?x=" ++ String SQUOTE "y "))
    = "x=y".
Proof.
  split; [repeat split|].
  exact (token_is_assigned_at_its_delimiter Request.fresh "GET" "/a<b"
           ("x=" ++ String SQUOTE "y") eq_refl eq_refl eq_refl).
Defined.

(** *** The version token *)

Lemma seg_assoc (a b x : string) (d e : ascii) :
  (a ++ String d (b ++ String e "")) ++ x = a ++ String d (b ++ String e x).
Proof. rewrite append_assoc. simpl. now rewrite append_assoc. Qed.

(** Across the characters up to and including the '.', the last digit is
    what the major version holds on entry to the MINOR state. *)
Lemma major_segment (r0 : Request.t) (l0 : locals) (cs tl : string) (d : ascii) :
  state l0 = PARSER_STATE_MAJOR ->
  string_forallb (not_char ".") cs = true ->
  isdigit d = true ->
  string_forallb (not_char ".") tl = true ->
  string_forallb (fun c => negb (isdigit c)) tl = true ->
  exists r1,
    parse_loop (cs ++ String d (tl ++ String "." "")) (r0, l0) =
    (Request.set_httpMajorVersion r1 (digit_value d),
     mkLocals (tmp l0) PARSER_STATE_MINOR (isKey l0)).
Proof.
  intros Hs Hc Hd Ht Hn.
  destruct (run_MAJOR cs r0 l0 Hs Hc) as [E1 _].
  destruct (parse_loop cs (r0, l0)) as [r1 l1] eqn:E. simpl in E1. subst l1.
  exists r1. rewrite parse_loop_app, E. cbn [parse_loop].
  assert (S1 : parse_step d (r1, l0) = (Request.set_httpMajorVersion r1 (digit_value d), l0)).
  { unfold parse_step. now rewrite Hs, Hd. }
  rewrite S1, parse_loop_app.
  destruct (run_MAJOR tl (Request.set_httpMajorVersion r1 (digit_value d)) l0 Hs Ht)
    as [E2 E3]. specialize (E3 Hn).
  destruct (parse_loop tl _) as [r2 l2]. simpl in E2, E3. subst r2 l2.
  cbn [parse_loop]. unfold parse_step. now rewrite Hs.
Qed.

(** Across the characters up to and including the line feed, the last digit
    is what the minor version holds on entry to the HEADERS state. *)
Lemma minor_segment (r0 : Request.t) (l0 : locals) (cs tl : string) (d : ascii) :
  state l0 = PARSER_STATE_MINOR ->
  string_forallb (not_char LF) cs = true ->
  isdigit d = true ->
  string_forallb (not_char LF) tl = true ->
  string_forallb (fun c => negb (isdigit c)) tl = true ->
  exists r1,
    parse_loop (cs ++ String d (tl ++ String LF "")) (r0, l0) =
    (Request.set_httpMinorVersion r1 (digit_value d),
     mkLocals (tmp l0) PARSER_STATE_HEADERS (isKey l0)) /\
    Request.httpMajorVersion r1 = Request.httpMajorVersion r0.
Proof.
  intros Hs Hc Hd Ht Hn.
  destruct (run_MINOR cs r0 l0 Hs Hc) as [E1 _].
  pose proof (parse_loop_past_major cs r0 l0 (or_introl Hs)) as EM.
  destruct (parse_loop cs (r0, l0)) as [r1 l1] eqn:E. simpl in E1, EM. subst l1.
  exists r1. split; [|exact EM].
  rewrite parse_loop_app, E. cbn [parse_loop].
  assert (S1 : parse_step d (r1, l0) = (Request.set_httpMinorVersion r1 (digit_value d), l0)).
  { unfold parse_step. rewrite Hs, Hd.
    destruct (d =? LF)%char eqn:EL; [|reflexivity].
    apply Ascii.eqb_eq in EL. subst d. discriminate Hd. }
  rewrite S1, parse_loop_app.
  destruct (run_MINOR tl (Request.set_httpMinorVersion r1 (digit_value d)) l0 Hs Ht)
    as [E2 E3]. specialize (E3 Hn).
  destruct (parse_loop tl _) as [r2 l2]. simpl in E2, E3. subst r2 l2.
  cbn [parse_loop]. unfold parse_step. now rewrite Hs.
Qed.

(** C8. In the MAJOR and MINOR states a digit overwrites the version field:
    of the characters between the '/' and the '.', the last digit alone is
    the major version, and of those between the '.' and the line feed, the
    last digit alone is the minor version, whatever came before it. *)
Theorem version_keeps_last_digit
    (req : Request.t) (pre cs1 tl1 cs2 tl2 rest : string) (d1 d2 : ascii) :
  state (snd (parse_loop pre (req, locals_init))) = PARSER_STATE_MAJOR ->
  string_forallb (not_char ".") cs1 = true ->
  isdigit d1 = true ->
  string_forallb (not_char ".") tl1 = true ->
  string_forallb (fun c => negb (isdigit c)) tl1 = true ->
  string_forallb (not_char LF) cs2 = true ->
  isdigit d2 = true ->
  string_forallb (not_char LF) tl2 = true ->
  string_forallb (fun c => negb (isdigit c)) tl2 = true ->
  let r :=
    parsed req
      (pre ++ cs1 ++ String d1 (tl1 ++ String "." (cs2 ++ String d2 (tl2 ++ String LF rest))))
  in
  Request.httpMajorVersion r = digit_value d1 /\
  Request.httpMinorVersion r = digit_value d2.
Proof.
  intros Hs Hc1 Hd1 Ht1 Hn1 Hc2 Hd2 Ht2 Hn2 r. subst r.
  set (seg1 := cs1 ++ String d1 (tl1 ++ String "." "")).
  set (seg2 := cs2 ++ String d2 (tl2 ++ String LF "")).
  replace (pre ++ cs1 ++ String d1 (tl1 ++ String "." (cs2 ++ String d2 (tl2 ++ String LF rest))))
    with (pre ++ seg1 ++ seg2 ++ rest)
    by (unfold seg1, seg2; now rewrite !seg_assoc).
  unfold parsed, httpRequestParse; simpl.
  match goal with
  | |- context [parse_finish ?x] =>
      destruct (parse_finish_fields x) as (_ & _ & _ & EM & Em & _); rewrite EM, Em
  end.
  rewrite (parse_loop_app pre), (parse_loop_app seg1), (parse_loop_app seg2).
  unfold seg1, seg2.
  destruct (parse_loop pre (req, locals_init)) as [r0 l0]. simpl in Hs.
  destruct (major_segment r0 l0 cs1 tl1 d1 Hs Hc1 Hd1 Ht1 Hn1) as [r1 E1].
  rewrite E1.
  destruct (minor_segment (Request.set_httpMajorVersion r1 (digit_value d1))
              (mkLocals (tmp l0) PARSER_STATE_MINOR (isKey l0))
              cs2 tl2 d2 eq_refl Hc2 Hd2 Ht2 Hn2) as (r2 & E2 & E3).
  rewrite E2.
  rewrite parse_loop_past_major by (right; reflexivity).
  rewrite parse_loop_in_headers by reflexivity.
  split; [exact E3 | reflexivity].
Qed.

(** The version token "25.34": major 5, minor 4. *)
Lemma version_keeps_last_digit_witness :
  (state (snd (parse_loop "GET / HTTP/" (Request.fresh, locals_init)))
     = PARSER_STATE_MAJOR /\
   string_forallb (not_char ".") "2" = true /\
   isdigit "5" = true /\
   string_forallb (not_char ".") "" = true /\
   string_forallb (fun c => negb (isdigit c)) "" = true /\
   string_forallb (not_char LF) "3" = true /\
   isdigit "4" = true /\
   string_forallb (not_char LF) (String CR "") = true /\
   string_forallb (fun c => negb (isdigit c)) (String CR "") = true) /\
  Request.httpMajorVersion
    (parsed Request.fresh ("GET / HTTP/25.34" ++ CRLF ++ "Host: a" ++ CRLF)) = 5%Z /\
  Request.httpMinorVersion
    (parsed Request.fresh ("GET / HTTP/25.34" ++ CRLF ++ "Host: a" ++ CRLF)) = 4%Z.
Proof.
  split; [repeat split|].
  exact (version_keeps_last_digit Request.fresh "GET / HTTP/" "2" "" "3" (String CR "")
           ("Host: a" ++ CRLF) "5" "4"
           eq_refl eq_refl eq_refl eq_refl eq_refl eq_refl eq_refl eq_refl eq_refl).
Defined.

(** C7. Header names are lower-cased before they are registered: two
    buffers that differ only in the case of the letters of one header name
    parse to the same request; every key of the headers map of a request
    parsed from any buffer is in lower case; "Host: a" and "host: a" both
    give the one entry host: a. *)
Theorem header_name_case_is_ignored
    (req : Request.t) (pre k1 k2 rest buffer : string) :
  state (snd (parse_loop pre (req, locals_init))) = PARSER_STATE_HEADERS ->
  isKey (snd (parse_loop pre (req, locals_init))) = true ->
  string_forallb (fun c => not_char LF c && not_char ":" c) k1 = true ->
  string_forallb (fun c => not_char LF c && not_char ":" c) k2 = true ->
  strtolower k1 = strtolower k2 ->
  parsed req (pre ++ k1 ++ String ":" rest) = parsed req (pre ++ k2 ++ String ":" rest) /\
  Forall lowered (keys (Request.headers (parsed Request.fresh buffer))) /\
  StrMap.elements
    (Request.headers
       (parsed Request.fresh ("GET / HTTP/1.1" ++ CRLF ++ "Host: a" ++ CRLF ++ CRLF)))
    = [("host", "a")] /\
  StrMap.elements
    (Request.headers
       (parsed Request.fresh ("GET / HTTP/1.1" ++ CRLF ++ "host: a" ++ CRLF ++ CRLF)))
    = [("host", "a")].
Proof.
  intros Hs Hi H1 H2 Hk.
  split; [|split; [|split; reflexivity]].
  - unfold parsed, httpRequestParse; simpl. f_equal. f_equal.
    rewrite !parse_loop_app.
    destruct (parse_loop pre (req, locals_init)) as [r0 l0]. simpl in Hs, Hi.
    rewrite (run_HEADERS_key k1), (run_HEADERS_key k2) by auto.
    simpl. f_equal.
    unfold parse_step. simpl.
    unfold strtolower in *. now rewrite !string_map_app, Hk.
  - assert (H0 : keys_inv (Request.fresh, locals_init)).
    { split; simpl; [|discriminate].
      intros k Hin. apply StrMapFacts.empty_in_iff in Hin. contradiction. }
    destruct (parse_loop_keys_inv buffer _ H0) as [Hkeys _].
    unfold parsed, httpRequestParse; simpl.
    destruct (parse_finish_fields (fst (parse_loop buffer (Request.fresh, locals_init))))
      as (_ & _ & _ & _ & _ & E). rewrite E.
    apply Forall_forall. intros k Hin. apply Hkeys.
    unfold keys in Hin. apply in_map_iff in Hin as ([k' v] & Ek & Hin). simpl in Ek. subst k'.
    apply StrMapFacts.elements_in_iff. exists v.
    apply In_InA; [|exact Hin].
    apply StrMap.Raw.PX.eqke_equiv.
Qed.

(** The header names "Host" and "host" (and the buffer with "HOST"). *)
Lemma header_name_case_is_ignored_witness :
  (state (snd (parse_loop ("GET / HTTP/1.1" ++ CRLF) (Request.fresh, locals_init)))
     = PARSER_STATE_HEADERS /\
   isKey (snd (parse_loop ("GET / HTTP/1.1" ++ CRLF) (Request.fresh, locals_init))) = true /\
   string_forallb (fun c => not_char LF c && not_char ":" c) "Host" = true /\
   string_forallb (fun c => not_char LF c && not_char ":" c) "host" = true /\
   strtolower "Host" = strtolower "host") /\
  parsed Request.fresh ("GET / HTTP/1.1" ++ CRLF ++ "Host: a" ++ CRLF ++ CRLF)
  = parsed Request.fresh ("GET / HTTP/1.1" ++ CRLF ++ "host: a" ++ CRLF ++ CRLF) /\
  Forall lowered
    (keys (Request.headers
             (parsed Request.fresh ("GET / HTTP/1.1" ++ CRLF ++ "HOST: a" ++ CRLF)))).
Proof.
  split; [repeat split|].
  pose proof (header_name_case_is_ignored Request.fresh ("GET / HTTP/1.1" ++ CRLF)
                "Host" "host" (" a" ++ CRLF ++ CRLF)
                ("GET / HTTP/1.1" ++ CRLF ++ "HOST: a" ++ CRLF)
                eq_refl eq_refl eq_refl eq_refl eq_refl) as (H1 & H2 & _).
  split; [exact H1 | exact H2].
Defined.

(** ** The socket *)

Lemma substring_end (s : string) : substring (String.length s) 0 s = "".
Proof. induction s as [|c s IH]; simpl; [reflexivity | exact IH]. Qed.

Lemma sendBytes_loop_unscripted (fuel : nat) (s : Sock) (p : string) (n : Z) :
  script s = [] ->
  String.length p <> 0 ->
  sendBytes_loop (S fuel) s p n =
  (mkSock (wire s ++ [p]) [] (closed s), Z.of_nat (String.length p)).
Proof.
  intros Hs Hp. cbn [sendBytes_loop].
  destruct (Nat.eqb_spec (String.length p) 0) as [E0 | _]; [contradiction|].
  unfold sys_send. rewrite Hs.
  destruct (Z.ltb_spec (Z.of_nat (String.length p)) 1) as [L | _]; [lia|].
  rewrite Nat2Z.id, Nat.sub_diag, substring_end.
  destruct fuel; reflexivity.
Qed.

(** On a socket with no script left, [sendBytes] hands the whole buffer to
    the kernel in one call, and makes no call for an empty buffer. *)
Lemma sendBytes_unscripted (s : Sock) (buffer : string) :
  script s = [] ->
  sendBytes s buffer =
  if (String.length buffer =? 0)%nat then (s, 0%Z)
  else (mkSock (wire s ++ [buffer]) [] (closed s), Z.of_nat (String.length buffer)).
Proof.
  intros Hs. unfold sendBytes.
  destruct (Nat.eqb_spec (String.length buffer) 0) as [E | E].
  - rewrite E. reflexivity.
  - destruct (String.length buffer) as [|fuel] eqn:El; [contradiction|].
    rewrite sendBytes_loop_unscripted by (auto; congruence).
    now rewrite El.
Qed.

(** ** The serializer *)

Lemma fold_header_line (hs : list (string * string)) (head : string) :
  fold_left Response.header_line hs head = head ++ header_block hs.
Proof.
  unfold header_block. revert head.
  induction hs as [|h hs IH]; intros head; simpl; [now rewrite append_nil_r|].
  rewrite IH, (IH (Response.header_line "" h)).
  unfold Response.header_line. simpl. now rewrite !append_assoc.
Qed.

Lemma status_line_known (r : Response.t) (req : Request.t) (reason : string) :
  httpStatusMessage (Response.statusCode r) = Some reason ->
  Response.status_line r req =
  Ok ((if (Request.httpMinorVersion req =? 0)%Z then "HTTP/1.0" else "HTTP/1.1")
      ++ " " ++ to_string (Response.statusCode r) ++ " " ++ reason ++ CRLF).
Proof.
  intros H. unfold Response.status_line. rewrite H. simpl.
  destruct (Request.httpMinorVersion req =? 0)%Z; simpl;
    now rewrite !append_assoc.
Qed.

Lemma send_head_known (r : Response.t) (req : Request.t) (reason : string) :
  httpStatusMessage (Response.statusCode r) = Some reason ->
  Response.send_head r req =
  Ok ((if (Request.httpMinorVersion req =? 0)%Z then "HTTP/1.0" else "HTTP/1.1")
      ++ " " ++ to_string (Response.statusCode r) ++ " " ++ reason ++ CRLF
      ++ header_block (StrMap.elements (Response.headers r)) ++ CRLF).
Proof.
  intros H. unfold Response.send_head. rewrite (status_line_known r req reason H).
  cbn [bind]. rewrite fold_header_line. now rewrite !append_assoc.
Qed.

Lemma send_head_unknown (r : Response.t) (req : Request.t) :
  httpStatusMessage (Response.statusCode r) = None ->
  Response.send_head r req = Undefined.
Proof.
  intros H. unfold Response.send_head, Response.status_line. now rewrite H.
Qed.

Lemma status_scan_absent (table : list (Z * string)) (code : Z) :
  ~ In code (map fst table) -> status_scan table code = None.
Proof.
  induction table as [|[c m] table IH]; simpl; [reflexivity|].
  intros H. destruct (Z.eqb_spec c code) as [E | E]; [tauto|].
  apply IH. tauto.
Qed.

(** ** The handler *)

Lemma errorPage_400 :
  Response.errorPage (Response.set_statusCode Response.fresh 400) = Ok page400.
Proof. reflexivity. Qed.

Lemma send_head_400 (req : Request.t) :
  Response.send_head (Response.send_set_headers page400) req = Ok (head400 req).
Proof.
  rewrite (send_head_known _ req "Bad Request") by reflexivity.
  unfold head400. destruct (Request.httpMinorVersion req =? 0)%Z; reflexivity.
Qed.

Lemma hasError_bad_protocol (req : Request.t) (pre rest : string) :
  state (snd (parse_loop pre (req, locals_init))) = PARSER_STATE_PROTOCOL ->
  tmp (snd (parse_loop pre (req, locals_init))) <> "HTTP" ->
  Request.hasError (parsed req (pre ++ String "/" rest)) = true.
Proof.
  intros Hs Ht. unfold parsed, httpRequestParse; simpl.
  apply parse_finish_hasError. left.
  rewrite parse_loop_app.
  destruct (parse_loop pre (req, locals_init)) as [r0 l0]. simpl in Hs, Ht.
  cbn [parse_loop]. apply parse_loop_hasError.
  unfold parse_step. rewrite Hs. simpl.
  apply String.eqb_neq in Ht. now rewrite Ht.
Qed.

Lemma hasError_bad_major (req : Request.t) (buffer : string) :
  Request.httpMajorVersion (parsed req buffer) <> 1%Z ->
  Request.hasError (parsed req buffer) = true.
Proof.
  unfold parsed, httpRequestParse; simpl. intros H.
  apply parse_finish_hasError. right.
  now destruct (parse_finish_fields (fst (parse_loop buffer (req, locals_init))))
    as (_ & _ & _ & E & _); rewrite <- E.
Qed.

(** What the handler does once the parsed request carries the error flag. *)
Lemma handler_on_error (cb : option callback_t) (sock : Sock) (data : string) :
  data <> "" ->
  Request.hasError (parsed Request.fresh data) = true ->
  exists res sock' sent,
    serverRequestHandler cb (Some data) sock
      = Ok (mkHandled (close sock') (parsed Request.fresh data) res false) /\
    Response.statusCode res = 400%Z /\
    Response.body res = body400 /\
    Response.send page400 (parsed Request.fresh data) sock = Ok (res, sock', sent) /\
    (script sock = [] ->
     wire sock' = (wire sock ++ [head400 (parsed Request.fresh data); body400])%list /\
     sent = true).
Proof.
  intros Hd He.
  unfold serverRequestHandler.
  destruct data as [|c data']; [contradiction|].
  cbn [String.length Nat.eqb].
  change (httpRequestParse Request.fresh (String c data'))
    with (true, parsed Request.fresh (String c data')).
  cbn [negb]. rewrite He, errorPage_400. cbn [bind].
  set (req := parsed Request.fresh (String c data')).
  unfold Response.send. rewrite send_head_400. cbn [bind].
  destruct (Response.write sock (head400 req)) as [s1 n1] eqn:W1.
  assert (U1 : script sock = [] ->
               s1 = mkSock (wire sock ++ [head400 req]) [] (closed sock) /\
               (n1 <? 0)%Z = false).
  { intros Hs. unfold Response.write in W1.
    rewrite sendBytes_unscripted in W1 by assumption.
    unfold head400 in *.
    destruct (Request.httpMinorVersion req =? 0)%Z; simpl in W1;
      inversion W1; split; reflexivity. }
  destruct (n1 <? 0)%Z eqn:N1.
  - exists (Response.send_set_headers page400), s1, false.
    do 4 (split; [reflexivity|]).
    intros Hs. destruct (U1 Hs) as [_ X]. discriminate X.
  - destruct (Response.write s1 (Response.body (Response.send_set_headers page400)))
      as [s2 n2] eqn:W2.
    assert (U2 : script sock = [] ->
                 wire s2 = (wire sock ++ [head400 req; body400])%list /\
                 (n2 <? 0)%Z = false).
    { intros Hs. destruct (U1 Hs) as [E1 _]. subst s1.
      unfold Response.write in W2.
      rewrite sendBytes_unscripted in W2 by reflexivity.
      simpl in W2. inversion W2; subst. simpl.
      rewrite <- app_assoc. split; reflexivity. }
    destruct (n2 <? 0)%Z eqn:N2.
    + exists (Response.send_set_headers page400), s2, false.
      do 4 (split; [reflexivity|]).
      intros Hs. destruct (U2 Hs) as [_ X]. discriminate X.
    + exists (Response.send_set_headers page400), s2, true.
      do 4 (split; [reflexivity|]).
      intros Hs. destruct (U2 Hs) as [X _]. split; [exact X | reflexivity].
Qed.

(** C4. A request whose protocol token, the characters the PROTOCOL state
    has gathered when the '/' arrives, is not "HTTP", or whose parsed major
    version is not 1, leaves hasError set; the handler then answers with the
    status 400 and the generic error page, sends it, closes the socket and
    does not call the application callback. *)
Theorem bad_protocol_or_major_is_answered_400
    (onRequestCallback : option callback_t) (sock : Sock) (pre rest data : string) :
  data <> "" ->
  (data = pre ++ String "/" rest /\
   state (snd (parse_loop pre (Request.fresh, locals_init))) = PARSER_STATE_PROTOCOL /\
   tmp (snd (parse_loop pre (Request.fresh, locals_init))) <> "HTTP")
  \/ Request.httpMajorVersion (parsed Request.fresh data) <> 1%Z ->
  let req := parsed Request.fresh data in
  fst (httpRequestParse Request.fresh data) = true /\
  Request.hasError req = true /\
  exists res sock' sent,
    serverRequestHandler onRequestCallback (Some data) sock
      = Ok (mkHandled (close sock') req res false) /\
    Response.statusCode res = 400%Z /\
    Response.body res = body400 /\
    Response.send page400 req sock = Ok (res, sock', sent) /\
    (script sock = [] ->
     wire sock' = (wire sock ++ [head400 req; body400])%list /\ sent = true).
Proof.
  intros Hd H req.
  assert (He : Request.hasError req = true).
  { destruct H as [(E & Hs & Ht) | H].
    - subst req data. now apply hasError_bad_protocol.
    - now apply hasError_bad_major. }
  split; [reflexivity|]. split; [exact He|].
  now apply handler_on_error.
Qed.

(** The request "GET / FOO/1.1\r\n\r\n" handed to the handler of example.cc
    on a socket that takes everything. *)
Lemma bad_protocol_or_major_is_answered_400_witness :
  let data := "GET / FOO/1.1" ++ CRLF ++ CRLF in
  (data <> "" /\
   ((data = "GET / FOO" ++ String "/" ("1.1" ++ CRLF ++ CRLF) /\
     state (snd (parse_loop "GET / FOO" (Request.fresh, locals_init)))
       = PARSER_STATE_PROTOCOL /\
     tmp (snd (parse_loop "GET / FOO" (Request.fresh, locals_init))) <> "HTTP")
    \/ Request.httpMajorVersion (parsed Request.fresh data) <> 1%Z)) /\
  Request.hasError (parsed Request.fresh data) = true /\
  exists res sock',
    serverRequestHandler (Some example_callback) (Some data) (mkSock [] [] false)
      = Ok (mkHandled (close sock') (parsed Request.fresh data) res false) /\
    Response.statusCode res = 400%Z /\
    wire sock' = [head400 (parsed Request.fresh data); body400].
Proof.
  intros data.
  assert (Hd : data <> "") by discriminate.
  assert (Hp : (data = "GET / FOO" ++ String "/" ("1.1" ++ CRLF ++ CRLF) /\
     state (snd (parse_loop "GET / FOO" (Request.fresh, locals_init)))
       = PARSER_STATE_PROTOCOL /\
     tmp (snd (parse_loop "GET / FOO" (Request.fresh, locals_init))) <> "HTTP")
    \/ Request.httpMajorVersion (parsed Request.fresh data) <> 1%Z).
  { left. repeat split. discriminate. }
  split; [split; [exact Hd | exact Hp]|].
  destruct (bad_protocol_or_major_is_answered_400 (Some example_callback)
              (mkSock [] [] false) "GET / FOO" ("1.1" ++ CRLF ++ CRLF) data Hd Hp)
    as (_ & He & res & sock' & sent & E1 & E2 & _ & _ & E3).
  split; [exact He|].
  exists res, sock'. split; [exact E1|]. split; [exact E2|].
  exact (proj1 (E3 eq_refl)).
Defined.

(** ** The claims on the serializer *)

Lemma In_keys_iff (m : StrMap.t string) (k : string) :
  In k (keys m) <-> StrMap.In k m.
Proof.
  unfold keys. rewrite StrMapFacts.elements_in_iff, in_map_iff. split.
  - intros ([k' v] & E & Hin). simpl in E. subst k'. exists v.
    apply In_InA; [apply StrMap.Raw.PX.eqke_equiv | exact Hin].
  - intros (v & Hin). apply InA_alt in Hin as ([k' v'] & [E1 E2] & Hin).
    simpl in E1, E2. subst. now exists (k', v').
Qed.

Lemma keys_sorted (m : StrMap.t string) : Sorted name_lt (keys m).
Proof.
  unfold keys. pose proof (StrMap.elements_3 m) as H.
  induction H as [|[k v] l Hl IH Hd]; simpl; constructor; [exact IH|].
  destruct Hd as [|[k' v'] l' Hlt]; simpl; constructor.
  apply String_as_OT.cmp_lt. exact Hlt.
Qed.

Lemma apply_headers_In (writes : list (string * string)) (r : Response.t) (k : string) :
  StrMap.In k (Response.headers (apply_headers writes r)) <->
  In k (map fst writes) \/ StrMap.In k (Response.headers r).
Proof.
  unfold apply_headers. revert r.
  induction writes as [|[k' v'] writes IH]; intros r; simpl; [tauto|].
  rewrite IH. simpl. rewrite StrMapFacts.add_in_iff. tauto.
Qed.

Lemma name_lt_trans (a b c : string) : name_lt a b -> name_lt b c -> name_lt a c.
Proof.
  unfold name_lt. intros H1 H2.
  apply String_as_OT.cmp_lt in H1, H2. apply String_as_OT.cmp_lt.
  exact (String_as_OT.lt_trans H1 H2).
Qed.

Lemma name_lt_irrefl (a : string) : ~ name_lt a a.
Proof.
  unfold name_lt. intros H. apply String_as_OT.cmp_lt in H.
  exact (String_as_OT.lt_not_eq H eq_refl).
Qed.

Lemma keys_NoDup (m : StrMap.t string) : NoDup (keys m).
Proof.
  assert (H : StronglySorted name_lt (keys m)).
  { apply Sorted_StronglySorted; [|apply keys_sorted].
    intros a b c. apply name_lt_trans. }
  induction H as [|k l Hl IH Hk]; constructor; [|exact IH].
  intros Hin. rewrite Forall_forall in Hk.
  exact (name_lt_irrefl k (Hk k Hin)).
Qed.

Lemma find_In_elements (m : StrMap.t string) (k v : string) :
  StrMap.find k m = Some v -> In (k, v) (StrMap.elements m).
Proof.
  intros H. apply StrMapFacts.find_mapsto_iff, StrMapFacts.elements_mapsto_iff in H.
  apply InA_alt in H as ([k' v'] & [E1 E2] & Hin). simpl in E1, E2. now subst.
Qed.

(** On a socket that takes everything, [send] writes the header block, then
    the body when there is one, and returns true. *)
Lemma send_unscripted (res : Response.t) (req : Request.t) (sock : Sock) (head : string) :
  script sock = [] ->
  Response.send_head (Response.send_set_headers res) req = Ok head ->
  head <> "" ->
  Response.send res req sock =
  Ok (Response.send_set_headers res,
      mkSock (wire sock ++ head ::
                (if (String.length (Response.body res) =? 0)%nat
                 then [] else [Response.body res]))
             [] (closed sock),
      true).
Proof.
  intros Hs Hh Hne. unfold Response.send. rewrite Hh. cbn [bind].
  unfold Response.write. rewrite sendBytes_unscripted by exact Hs.
  destruct head as [|c head]; [contradiction|].
  cbn [String.length Nat.eqb].
  destruct (Z.ltb_spec (Z.of_nat (S (String.length head))) 0) as [L | _]; [lia|].
  rewrite sendBytes_unscripted by reflexivity.
  change (Response.body (Response.send_set_headers res)) with (Response.body res).
  destruct (String.length (Response.body res) =? 0)%nat; cbn [wire closed].
  - reflexivity.
  - destruct (Z.ltb_spec (Z.of_nat (String.length (Response.body res))) 0) as [L | _];
      [lia|].
    now rewrite <- app_assoc.
Qed.

Lemma append_cons_nonempty (a b : string) (c : ascii) : a ++ String c b <> "".
Proof. destruct a; discriminate. Qed.

(** C9. The status line opens with "HTTP/1.0" when the minor version of the
    request is 0 and with "HTTP/1.1" for every other minor version; the
    header block [send] builds starts with that status line. *)
Theorem status_line_version_follows_minor
    (res : Response.t) (req : Request.t) (reason : string) :
  httpStatusMessage (Response.statusCode res) = Some reason ->
  let version :=
    if (Request.httpMinorVersion req =? 0)%Z then "HTTP/1.0" else "HTTP/1.1" in
  let line :=
    version ++ " " ++ to_string (Response.statusCode res) ++ " " ++ reason ++ CRLF in
  let head :=
    line
    ++ header_block (StrMap.elements (Response.headers (Response.send_set_headers res)))
    ++ CRLF in
  Response.status_line res req = Ok line /\
  Response.send_head (Response.send_set_headers res) req = Ok head /\
  (Request.httpMinorVersion req = 0%Z <-> version = "HTTP/1.0") /\
  (Request.httpMinorVersion req <> 0%Z <-> version = "HTTP/1.1") /\
  (forall sock : Sock, script sock = [] ->
     exists sock' chunks,
       Response.send res req sock = Ok (Response.send_set_headers res, sock', true) /\
       wire sock' = (wire sock ++ head :: chunks)%list).
Proof.
  intros H version line head.
  assert (Hh : Response.send_head (Response.send_set_headers res) req = Ok head).
  { subst head line version. rewrite (send_head_known _ req reason) by exact H.
    now rewrite !append_assoc. }
  split; [now apply status_line_known|].
  split; [exact Hh|].
  split; [|split].
  - subst version.
    destruct (Z.eqb_spec (Request.httpMinorVersion req) 0) as [E | E];
      split; intros X; try discriminate; congruence.
  - subst version.
    destruct (Z.eqb_spec (Request.httpMinorVersion req) 0) as [E | E];
      split; intros X; try discriminate; congruence.
  - intros sock Hs.
    eexists. eexists. split.
    + apply (send_unscripted res req sock _ Hs Hh).
      subst head. rewrite <- !append_assoc. apply append_cons_nonempty.
    + reflexivity.
Qed.

(** Requests parsed with the minor versions 9 and 0, answered with the
    default status 200. *)
Lemma status_line_version_follows_minor_witness :
  httpStatusMessage (Response.statusCode Response.fresh) = Some "Ok" /\
  Request.httpMinorVersion (parsed Request.fresh ("GET / HTTP/1.9" ++ CRLF ++ CRLF)) = 9%Z /\
  Response.status_line Response.fresh (parsed Request.fresh ("GET / HTTP/1.9" ++ CRLF ++ CRLF))
    = Ok ("HTTP/1.1 200 Ok" ++ CRLF) /\
  Response.status_line Response.fresh (parsed Request.fresh ("GET / HTTP/1.0" ++ CRLF ++ CRLF))
    = Ok ("HTTP/1.0 200 Ok" ++ CRLF).
Proof.
  split; [reflexivity|]. split; [reflexivity|]. split.
  - exact (proj1 (status_line_version_follows_minor Response.fresh
                    (parsed Request.fresh ("GET / HTTP/1.9" ++ CRLF ++ CRLF)) "Ok" eq_refl)).
  - exact (proj1 (status_line_version_follows_minor Response.fresh
                    (parsed Request.fresh ("GET / HTTP/1.0" ++ CRLF ++ CRLF)) "Ok" eq_refl)).
Defined.

(** C1. What [send] puts into the headers map before it serializes it:
    Content-Length with the decimal length of the body, and an entry named
    "Conection" (one n) with the value close. The entry "Connection" is left
    as the application set it: absent from a response it never set it on,
    and absent from the header block written for it. *)
Theorem send_sets_content_length_and_conection (res : Response.t) :
  let r := Response.send_set_headers res in
  StrMap.find "Content-Length" (Response.headers r)
    = Some (to_string_size (String.length (Response.body res))) /\
  StrMap.find "Conection" (Response.headers r) = Some "close" /\
  In ("Content-Length", to_string_size (String.length (Response.body res)))
     (StrMap.elements (Response.headers r)) /\
  In ("Conection", "close") (StrMap.elements (Response.headers r)) /\
  StrMap.find "Connection" (Response.headers r)
    = StrMap.find "Connection" (Response.headers res) /\
  StrMap.find "Connection" (Response.headers (Response.send_set_headers Response.fresh))
    = None /\
  Response.send_head (Response.send_set_headers Response.fresh) Request.fresh
    = Ok ("HTTP/1.0 200 Ok" ++ CRLF
          ++ "Conection: close" ++ CRLF
          ++ "Content-Length: 0" ++ CRLF
          ++ CRLF).
Proof.
  intros r.
  assert (H1 : StrMap.find "Content-Length" (Response.headers r)
               = Some (to_string_size (String.length (Response.body res)))).
  { subst r. unfold Response.send_set_headers, Response.header. simpl.
    rewrite StrMapFacts.add_neq_o by discriminate.
    now rewrite StrMapFacts.add_eq_o. }
  assert (H2 : StrMap.find "Conection" (Response.headers r) = Some "close").
  { subst r. unfold Response.send_set_headers, Response.header. simpl.
    now rewrite StrMapFacts.add_eq_o. }
  split; [exact H1|]. split; [exact H2|].
  split; [now apply find_In_elements|]. split; [now apply find_In_elements|].
  split; [|split; reflexivity].
  subst r. unfold Response.send_set_headers, Response.header. simpl.
  now rewrite !StrMapFacts.add_neq_o by discriminate.
Qed.

(** C3. A status code outside the table has no reason phrase:
    [httpStatusMessage] returns the null pointer. [send] and [errorPage]
    append that pointer to a [std::string] all the same, which leaves
    defined behaviour: neither produces a response. *)
Theorem unknown_status_is_appended_as_null
    (code : Z) (res : Response.t) (req : Request.t) (sock : Sock) :
  ~ In code (map fst msg) ->
  Response.statusCode res = code ->
  httpStatusMessage code = None /\
  Response.send res req sock = Undefined /\
  Response.errorPage res = Undefined.
Proof.
  intros Hc Hr.
  assert (Hn : httpStatusMessage code = None) by now apply status_scan_absent.
  split; [exact Hn|]. split.
  - unfold Response.send. rewrite send_head_unknown; [reflexivity|].
    simpl. now rewrite Hr.
  - unfold Response.errorPage. simpl. now rewrite Hr, Hn.
Qed.

(** The status code 999. *)
Lemma unknown_status_is_appended_as_null_witness :
  (~ In 999%Z (map fst msg)) /\
  httpStatusMessage 999 = None /\
  Response.send (Response.set_statusCode Response.fresh 999) Request.fresh
    (mkSock [] [] false) = Undefined /\
  Response.errorPage (Response.set_statusCode Response.fresh 999) = Undefined.
Proof.
  assert (H : ~ In 999%Z (map fst msg)).
  { simpl. intros X. repeat (destruct X as [X | X]; [discriminate X|]). exact X. }
  split; [exact H|].
  exact (unknown_status_is_appended_as_null 999
           (Response.set_statusCode Response.fresh 999) Request.fresh
           (mkSock [] [] false) H eq_refl).
Defined.

(** C2, as the specification states it, fails on the three headers of
    example.cc: they are inserted as Content-Type, Server, Cache-Control,
    then Content-Length and Conection by [send], and serialized as
    Cache-Control, Conection, Content-Length, Content-Type, Server. *)
Lemma headers_not_serialized_in_insertion_order :
  let writes :=
    [("Content-Type", "text/plain"); ("Server", "ExampleHTTPServer");
     ("Cache-Control", "no-cache, no-store, must-revalidate")] in
  let res := apply_headers writes Response.fresh in
  let inserted := insertion_order (writes ++ send_writes res) in
  map fst inserted
    = ["Content-Type"; "Server"; "Cache-Control"; "Content-Length"; "Conection"] /\
  keys (Response.headers (Response.send_set_headers res))
    = ["Cache-Control"; "Conection"; "Content-Length"; "Content-Type"; "Server"] /\
  Response.send_head (Response.send_set_headers res) Request.fresh
    <> Ok ("HTTP/1.0 200 Ok" ++ CRLF ++ header_block inserted ++ CRLF).
Proof.
  split; [reflexivity|]. split; [reflexivity|].
  vm_compute. discriminate.
Qed.

(** C2, amended. [send] serializes one line per header name, in ascending
    byte-wise order of the names, whatever the order in which the headers
    were written; the names are those written by the application and the
    two written by [send]; names are compared byte by byte, so that two
    names differing in case are two headers. *)
Theorem headers_serialized_in_name_order
    (writes : list (string * string)) (req : Request.t) :
  let r := Response.send_set_headers (apply_headers writes Response.fresh) in
  Sorted name_lt (keys (Response.headers r)) /\
  NoDup (keys (Response.headers r)) /\
  (forall k, In k (keys (Response.headers r)) <->
             In k (map fst writes) \/ k = "Content-Length" \/ k = "Conection") /\
  Response.send_head r req =
    (line <- Response.status_line r req ;;
     Ok (line ++ header_block (StrMap.elements (Response.headers r)) ++ CRLF)) /\
  keys (Response.headers
          (Response.send_set_headers
             (apply_headers [("x-id", "1"); ("X-Id", "2")] Response.fresh)))
    = ["Conection"; "Content-Length"; "X-Id"; "x-id"].
Proof.
  intros r. split; [apply keys_sorted|]. split; [apply keys_NoDup|].
  split; [|split; [|reflexivity]].
  - intros k. rewrite In_keys_iff. subst r.
    unfold Response.send_set_headers, Response.header. simpl.
    rewrite !StrMapFacts.add_in_iff, apply_headers_In. simpl.
    rewrite StrMapFacts.empty_in_iff.
    split; intros H; repeat destruct H as [H | H]; auto; contradiction.
  - unfold Response.send_head.
    destruct (Response.status_line r req) as [line|]; simpl; [|reflexivity].
    rewrite fold_header_line. now rewrite append_assoc.
Qed.

(** * Further properties of the code *)

(** ** The status table *)

Lemma status_scan_lookup (table : list (Z * string)) (code : Z) (m : string) :
  NoDup (map fst table) ->
  (status_scan table code = Some m <-> In (code, m) table).
Proof.
  induction table as [|[c m'] table IH]; simpl; intros Hnd.
  - split; [discriminate | tauto].
  - inversion Hnd as [|? ? Hc Hnd']; subst.
    destruct (Z.eqb_spec c code) as [E | E].
    + subst c. split.
      * intros H. inversion H; subst. now left.
      * intros [H | H]; [now inversion H|].
        exfalso. apply Hc. apply in_map_iff. now exists (code, m).
    + rewrite (IH Hnd'). split; [tauto|].
      intros [H | H]; [inversion H; contradiction | exact H].
Qed.

Lemma msg_codes_NoDup : NoDup (map fst msg).
Proof.
  simpl.
  repeat (constructor;
          [simpl; intros H; repeat (destruct H as [H | H]; [discriminate H|]); exact H|]).
  constructor.
Qed.

(** X1. [httpStatusMessage] returns a phrase exactly for the codes of the
    table, and then the phrase the table pairs with the code; no entry of
    the table has the code 0 that ends the scan, and 0 itself has no phrase. *)
Theorem httpStatusMessage_is_table_lookup :
  forall (code : Z) (m : string),
    (httpStatusMessage code = Some m <-> In (code, m) msg) /\
    (httpStatusMessage code = None <-> ~ In code (map fst msg)) /\
    ~ In 0%Z (map fst msg) /\
    httpStatusMessage 0 = None.
Proof.
  intros code m.
  split; [apply status_scan_lookup, msg_codes_NoDup|].
  split; [|split; [|reflexivity]].
  - split; [|apply status_scan_absent].
    intros Hn Hin. apply in_map_iff in Hin as ([c m'] & E & Hin). simpl in E. subst c.
    apply (status_scan_lookup msg code m' msg_codes_NoDup) in Hin.
    unfold httpStatusMessage in Hn. congruence.
  - simpl. intros H. repeat (destruct H as [H | H]; [discriminate H|]). exact H.
Qed.

(** ** strtolower *)

Lemma tolower_char_not_upper (c : ascii) : is_upper (tolower_char c) = false.
Proof. destruct c as [[] [] [] [] [] [] [] []]; reflexivity. Qed.

Lemma tolower_char_fixed (c : ascii) : tolower_char c = c <-> is_upper c = false.
Proof. destruct c as [[] [] [] [] [] [] [] []]; split; (reflexivity || discriminate). Qed.

(** X2. [strtolower] keeps the length of the string, leaves no letter
    'A'..'Z' in it, lowers a concatenation piece by piece, and leaves a
    string as it is exactly when the string has no such letter. *)
Theorem strtolower_lowers_letters_only :
  forall s t : string,
    String.length (strtolower s) = String.length s /\
    string_forallb (fun c => negb (is_upper c)) (strtolower s) = true /\
    strtolower (s ++ t) = strtolower s ++ strtolower t /\
    (strtolower s = s <-> string_forallb (fun c => negb (is_upper c)) s = true).
Proof.
  intros s t. unfold strtolower.
  split; [|split; [|split; [apply string_map_app|]]].
  - induction s as [|c s IH]; simpl; [reflexivity | now rewrite IH].
  - induction s as [|c s IH]; simpl; [reflexivity|].
    now rewrite tolower_char_not_upper, IH.
  - induction s as [|c s IH]; simpl; [tauto|].
    rewrite andb_true_iff, negb_true_iff, <- IH, <- tolower_char_fixed.
    split; [intros H; injection H as H1 H2; auto | intros [H1 H2]; now rewrite H1, H2].
Qed.

(** ** Response.header *)

(** X3. After any sequence of [header] calls, the value of a header name
    is the one its last write gave it, a name never written keeps the value
    it had, and the status code and the body are untouched. *)
Theorem header_last_write_wins :
  forall (writes : list (string * string)) (r : Response.t) (k : string),
    StrMap.find k (Response.headers (apply_headers writes r))
      = match last_write writes k with
        | Some v => Some v
        | None => StrMap.find k (Response.headers r)
        end /\
    Response.statusCode (apply_headers writes r) = Response.statusCode r /\
    Response.body (apply_headers writes r) = Response.body r.
Proof.
  unfold apply_headers.
  induction writes as [|[k' v] writes IH]; intros r k; simpl; [auto|].
  destruct (IH (Response.header r k' v) k) as (H1 & H2 & H3).
  rewrite H1, H2, H3. simpl. split; [|auto].
  destruct (last_write writes k); [reflexivity|].
  rewrite StrMapFacts.add_o.
  destruct (String_as_OT.eq_dec k' k) as [E | E].
  - subst. now rewrite String.eqb_refl.
  - apply String.eqb_neq in E. now rewrite E.
Qed.

(** ** errorPage *)

Lemma errorPage_known (r : Response.t) (reason : string) :
  httpStatusMessage (Response.statusCode r) = Some reason ->
  Response.errorPage r =
  Ok (Response.mk (Response.statusCode r)
        (StrMap.add "Cache-Control" "no-cache, no-store, must-revalidate"
           (StrMap.add "Content-Type" "text/html" (Response.headers r)))
        (error_body (Response.statusCode r) reason)).
Proof.
  intros H. unfold Response.errorPage. simpl. rewrite H. simpl.
  unfold Response.set_body, error_body. simpl.
  now rewrite !append_assoc.
Qed.

(** [send] on a response whose status code is in the table yields a result. *)
Lemma send_defined (r : Response.t) (req : Request.t) (sock : Sock) (reason : string) :
  httpStatusMessage (Response.statusCode r) = Some reason ->
  exists sock' sent,
    Response.send r req sock = Ok (Response.send_set_headers r, sock', sent).
Proof.
  intros H. unfold Response.send.
  rewrite (send_head_known (Response.send_set_headers r) req reason) by exact H.
  cbn [bind].
  destruct (Response.write sock _) as [s1 n1].
  destruct (n1 <? 0)%Z; [now eexists; eexists|].
  destruct (Response.write s1 _) as [s2 n2].
  destruct (n2 <? 0)%Z; now eexists; eexists.
Qed.

(** X4. For a status code of the table, [errorPage] replaces the body by
    the HTML page that shows the code and its reason phrase, whatever the
    body was, sets Content-Type to text/html and Cache-Control to no-cache,
    keeps the status code and every other header; [send] on that page is
    defined, and the Content-Length it writes is the length of the page. *)
Theorem errorPage_renders_code_and_reason
    (r : Response.t) (req : Request.t) (sock : Sock) (reason : string) :
  httpStatusMessage (Response.statusCode r) = Some reason ->
  exists page sock' sent,
    Response.errorPage r = Ok page /\
    Response.statusCode page = Response.statusCode r /\
    Response.body page = error_body (Response.statusCode r) reason /\
    StrMap.find "Content-Type" (Response.headers page) = Some "text/html" /\
    StrMap.find "Cache-Control" (Response.headers page)
      = Some "no-cache, no-store, must-revalidate" /\
    (forall k, k <> "Content-Type" -> k <> "Cache-Control" ->
       StrMap.find k (Response.headers page) = StrMap.find k (Response.headers r)) /\
    Response.send page req sock = Ok (Response.send_set_headers page, sock', sent) /\
    StrMap.find "Content-Length" (Response.headers (Response.send_set_headers page))
      = Some (to_string_size
                (String.length (error_body (Response.statusCode r) reason))).
Proof.
  intros H.
  set (page := Response.mk (Response.statusCode r)
        (StrMap.add "Cache-Control" "no-cache, no-store, must-revalidate"
           (StrMap.add "Content-Type" "text/html" (Response.headers r)))
        (error_body (Response.statusCode r) reason)).
  destruct (send_defined page req sock reason H) as (sock' & sent & Hsend).
  exists page, sock', sent.
  split; [now apply errorPage_known|].
  split; [reflexivity|]. split; [reflexivity|].
  split; [simpl; rewrite StrMapFacts.add_neq_o by discriminate;
          now rewrite StrMapFacts.add_eq_o|].
  split; [simpl; now rewrite StrMapFacts.add_eq_o|].
  split; [|split; [exact Hsend|]].
  - intros k H1 H2. simpl. now rewrite !StrMapFacts.add_neq_o by congruence.
  - unfold Response.send_set_headers, Response.header. simpl.
    rewrite StrMapFacts.add_neq_o by discriminate. now rewrite StrMapFacts.add_eq_o.
Qed.

(** The status 404 on a response that already has a body and a header. *)
Lemma errorPage_renders_code_and_reason_witness :
  httpStatusMessage 404 = Some "Not Found" /\
  exists page,
    Response.errorPage
      (Response.mk 404 (StrMap.add "Server" "x" (StrMap.empty string)) "old body")
      = Ok page /\
    Response.body page = error_body 404 "Not Found" /\
    StrMap.find "Server" (Response.headers page) = Some "x" /\
    StrMap.find "Content-Length" (Response.headers (Response.send_set_headers page))
      = Some "122".
Proof.
  split; [reflexivity|].
  destruct (errorPage_renders_code_and_reason
              (Response.mk 404 (StrMap.add "Server" "x" (StrMap.empty string)) "old body")
              Request.fresh (mkSock [] [] false) "Not Found" eq_refl)
    as (page & _ & _ & E1 & _ & E2 & _ & _ & E3 & _ & E4).
  exists page. split; [exact E1|]. split; [exact E2|].
  split; [rewrite E3 by discriminate; reflexivity | exact E4].
Defined.

(** ** sendBytes *)

Lemma substring_all (s : string) : substring 0 (String.length s) s = s.
Proof. induction s as [|c s IH]; simpl; [reflexivity | now rewrite IH]. Qed.

Lemma substring_split (p : string) (k : nat) :
  k <= String.length p ->
  substring 0 k p ++ substring k (String.length p - k) p = p.
Proof.
  revert k. induction p as [|c p IH]; intros k Hk; simpl in *.
  - assert (k = 0) by lia. subst. reflexivity.
  - destruct k as [|k]; simpl.
    + now rewrite substring_all.
    + now rewrite IH by lia.
Qed.

Lemma substring_rest_length (p : string) (k : nat) :
  k <= String.length p ->
  String.length (substring k (String.length p - k) p) = String.length p - k.
Proof.
  revert k. induction p as [|c p IH]; intros k Hk; simpl in *.
  - assert (k = 0) by lia. subst. reflexivity.
  - destruct k as [|k]; simpl.
    + now rewrite substring_all.
    + now rewrite IH by lia.
Qed.

Lemma length_zero_empty (s : string) : String.length s = 0 -> s = "".
Proof. destruct s; [reflexivity | discriminate]. Qed.

Lemma append_empty (a b : string) : a ++ b = "" -> a = "" /\ b = "".
Proof. destruct a; simpl; [auto | discriminate]. Qed.

(** The loop needs no more iterations than the buffer has bytes. *)
Lemma sendBytes_loop_fuel (fuel1 : nat) :
  forall (fuel2 : nat) (s : Sock) (p : string) (n : Z),
    String.length p <= fuel1 ->
    String.length p <= fuel2 ->
    sendBytes_loop fuel1 s p n = sendBytes_loop fuel2 s p n.
Proof.
  induction fuel1 as [|f1 IH]; intros fuel2 s p n H1 H2.
  - assert (E : String.length p = 0) by lia.
    destruct fuel2; simpl; [reflexivity | now rewrite E].
  - destruct (Nat.eqb_spec (String.length p) 0) as [E | E].
    + simpl. rewrite E. destruct fuel2; simpl; [reflexivity | now rewrite E].
    + destruct fuel2 as [|f2]; [lia|].
      cbn [sendBytes_loop].
      destruct (Nat.eqb_spec (String.length p) 0) as [E' | _]; [contradiction|].
      destruct (sys_send s p) as [s1 n1].
      destruct (Z.ltb_spec n1 1) as [L | L]; [reflexivity|].
      assert (Hk : String.length (substring (Z.to_nat n1) (String.length p - Z.to_nat n1) p)
                   <= String.length p - 1).
      { destruct (Nat.le_gt_cases (Z.to_nat n1) (String.length p)) as [Hle | Hgt].
        - rewrite substring_rest_length by exact Hle. lia.
        - replace (String.length p - Z.to_nat n1) with 0 by lia.
          assert (X : forall q k, String.length (substring k 0 q) <= String.length q - 1).
          { induction q as [|c q IHq]; intros [|k]; simpl; try lia.
            specialize (IHq k). lia. }
          apply X. }
      apply IH; lia.
Qed.

(** What one run of the loop does to the socket. *)
Lemma sendBytes_loop_spec (fuel : nat) :
  forall (s : Sock) (p : string) (n : Z),
    String.length p <= fuel ->
    exists chunks rem,
      wire (fst (sendBytes_loop fuel s p n)) = (wire s ++ chunks)%list /\
      concat_chunks chunks ++ rem = p /\
      closed (fst (sendBytes_loop fuel s p n)) = closed s /\
      (p = "" -> sendBytes_loop fuel s p n = (s, n)) /\
      (p <> "" -> (rem = "" <-> (1 <= snd (sendBytes_loop fuel s p n))%Z)).
Proof.
  induction fuel as [|f IH]; intros s p n Hp.
  - assert (E : p = "") by (apply length_zero_empty; lia). subst p.
    exists [], "". simpl. rewrite app_nil_r.
      split; [reflexivity|]. split; [reflexivity|]. split; [reflexivity|].
      split; [reflexivity | intros X; contradiction].
  - destruct (Nat.eqb_spec (String.length p) 0) as [E | E].
    + apply length_zero_empty in E. subst p.
      exists [], "". simpl. rewrite app_nil_r.
      split; [reflexivity|]. split; [reflexivity|]. split; [reflexivity|].
      split; [reflexivity | intros X; contradiction].
    + assert (Hne : p <> "") by (intros X; subst p; apply E; reflexivity).
      cbn [sendBytes_loop].
      destruct (Nat.eqb_spec (String.length p) 0) as [E' | _]; [contradiction|].
      unfold sys_send.
      destruct (script s) as [|r rest] eqn:Hs.
      * destruct (Z.ltb_spec (Z.of_nat (String.length p)) 1) as [L | _]; [lia|].
        rewrite Nat2Z.id, Nat.sub_diag, substring_end.
        destruct (IH (mkSock (wire s ++ [p]) [] (closed s)) "" (Z.of_nat (String.length p))
                    ltac:(simpl; lia)) as (_ & _ & _ & _ & _ & E0 & _).
        rewrite (E0 eq_refl). simpl.
        exists [p], "". simpl. rewrite !append_nil_r.
        split; [reflexivity|]. split; [reflexivity|]. split; [reflexivity|].
        split; [intros X; contradiction|].
        intros _. split; [intros _; lia | reflexivity].
      * destruct (Z.ltb_spec r 1) as [L | L].
        -- simpl. rewrite (proj2 (Z.ltb_lt r 1) L). simpl.
           exists [], p. simpl. rewrite app_nil_r.
           split; [reflexivity|]. split; [reflexivity|]. split; [reflexivity|].
           split; [intros X; contradiction|].
           intros _. split; [intros X; contradiction | intros X; lia].
        -- set (k := Nat.min (Z.to_nat r) (String.length p)).
           assert (Hk1 : 1 <= k) by (unfold k; lia).
           assert (Hk2 : k <= String.length p) by (unfold k; lia).
           cbn [fst snd].
           destruct (Z.ltb_spec (Z.of_nat k) 1) as [L' | _]; [lia|].
           rewrite Nat2Z.id.
           set (s1 := mkSock (wire s ++ [substring 0 k p]) rest (closed s)).
           set (p' := substring k (String.length p - k) p).
           assert (Hp' : String.length p' <= f).
           { unfold p'. rewrite substring_rest_length by exact Hk2. lia. }
           destruct (IH s1 p' (Z.of_nat k) Hp')
             as (chunks & rem & W & C & Cl & E0 & Eq).
           exists (substring 0 k p :: chunks), rem.
           split; [rewrite W; unfold s1; simpl; now rewrite <- app_assoc|].
           split; [simpl; rewrite append_assoc, C; unfold p'; now apply substring_split|].
           split; [rewrite Cl; reflexivity|].
           split; [intros X; contradiction|].
           intros _.
           destruct (string_dec p' "") as [Ep | Ep].
           ++ rewrite (E0 Ep). simpl. rewrite Ep in C.
              apply append_empty in C as [_ Er]. split; [lia | auto].
           ++ exact (Eq Ep).
Qed.

(** X5. [sendBytes] puts on the wire, in order, chunks that make up a
    prefix of the buffer, and never closes the socket; for an empty buffer
    it makes no call and returns 0; for a non-empty buffer it returns a
    value of at least 1 exactly when the whole buffer went out, and then the
    value is the size of the last chunk the kernel took, not the total. The
    loop ends within as many iterations as the buffer has bytes. *)
Theorem sendBytes_transmits_a_prefix (s : Sock) (buffer : string) (fuel : nat) :
  String.length buffer <= fuel ->
  sendBytes_loop fuel s buffer 0 = sendBytes s buffer /\
  exists chunks rem,
    wire (fst (sendBytes s buffer)) = (wire s ++ chunks)%list /\
    concat_chunks chunks ++ rem = buffer /\
    closed (fst (sendBytes s buffer)) = closed s /\
    (buffer = "" -> sendBytes s buffer = (s, 0%Z)) /\
    (buffer <> "" -> (rem = "" <-> (1 <= snd (sendBytes s buffer))%Z)).
Proof.
  intros H. split.
  - unfold sendBytes. now apply sendBytes_loop_fuel.
  - unfold sendBytes. now apply sendBytes_loop_spec.
Qed.

(** Five bytes on a socket whose kernel takes 3 bytes, then returns 0: "hel"
    goes out, the return value is 0; and on one that takes 3, then 2. *)
Lemma sendBytes_transmits_a_prefix_witness :
  (String.length "hello" <= 7) /\
  sendBytes_loop 7 (mkSock [] [3; 0]%Z false) "hello" 0
    = sendBytes (mkSock [] [3; 0]%Z false) "hello" /\
  sendBytes (mkSock [] [3; 0]%Z false) "hello" = (mkSock ["hel"] [] false, 0%Z) /\
  sendBytes (mkSock [] [3; 9]%Z false) "hello" = (mkSock ["hel"; "lo"] [] false, 2%Z).
Proof.
  assert (H : String.length "hello" <= 7) by (simpl; lia).
  split; [exact H|].
  split; [exact (proj1 (sendBytes_transmits_a_prefix
                          (mkSock [] [3; 0]%Z false) "hello" 7 H))|].
  split; reflexivity.
Defined.

(** ** Response.send on a socket that fails *)

Lemma sendBytes_refused (s : Sock) (buffer : string) (r : Z) (rest : list Z) :
  script s = r :: rest ->
  (r < 1)%Z ->
  buffer <> "" ->
  sendBytes s buffer = (mkSock (wire s) rest (closed s), r).
Proof.
  intros Hs Hr Hb. unfold sendBytes.
  destruct buffer as [|c b]; [contradiction|].
  cbn [String.length sendBytes_loop Nat.eqb]. unfold sys_send. rewrite Hs.
  rewrite (proj2 (Z.ltb_lt r 1) Hr). cbn [fst snd].
  now rewrite (proj2 (Z.ltb_lt r 1) Hr).
Qed.

(** X6. When the first [send(2)] call for the header block returns a
    value below 1, nothing of the header block is transmitted. If that value
    is negative, [send] returns false and never writes the body. If it is 0,
    [send] does not take it for a failure: it goes on to write the body, and
    its result is that of the body write alone. *)
Theorem send_first_write_refused
    (res : Response.t) (req : Request.t) (sock : Sock)
    (reason : string) (r : Z) (rest : list Z) :
  httpStatusMessage (Response.statusCode res) = Some reason ->
  script sock = r :: rest ->
  (r < 1)%Z ->
  let sock1 := mkSock (wire sock) rest (closed sock) in
  Response.send res req sock =
  if (r <? 0)%Z
  then Ok (Response.send_set_headers res, sock1, false)
  else Ok (Response.send_set_headers res,
           fst (sendBytes sock1 (Response.body res)),
           negb (snd (sendBytes sock1 (Response.body res)) <? 0)%Z).
Proof.
  intros H Hs Hr sock1. unfold Response.send.
  rewrite (send_head_known (Response.send_set_headers res) req reason) by exact H.
  cbn [bind]. unfold Response.write.
  rewrite (sendBytes_refused sock _ r rest Hs Hr)
    by (rewrite <- !append_assoc; apply append_cons_nonempty).
  fold sock1.
  destruct (r <? 0)%Z; [reflexivity|].
  change (Response.body (Response.send_set_headers res)) with (Response.body res).
  destruct (sendBytes sock1 (Response.body res)) as [s2 n2]. simpl.
  destruct (n2 <? 0)%Z; reflexivity.
Qed.

(** A kernel that returns 0 for the header block and then takes the body:
    [send] returns true and the wire holds the body alone; one that returns
    -1: [send] returns false and the wire is empty. *)
Lemma send_first_write_refused_witness :
  (httpStatusMessage (Response.statusCode (Response.set_body Response.fresh "hi"))
     = Some "Ok" /\
   script (mkSock [] [0]%Z false) = [0]%Z /\ (0 < 1)%Z) /\
  Response.send (Response.set_body Response.fresh "hi") Request.fresh
    (mkSock [] [0]%Z false)
  = Ok (Response.send_set_headers (Response.set_body Response.fresh "hi"),
        mkSock ["hi"] [] false, true) /\
  Response.send (Response.set_body Response.fresh "hi") Request.fresh
    (mkSock [] [-1]%Z false)
  = Ok (Response.send_set_headers (Response.set_body Response.fresh "hi"),
        mkSock [] [] false, false).
Proof.
  split; [repeat split; lia|].
  split.
  - exact (send_first_write_refused (Response.set_body Response.fresh "hi") Request.fresh
             (mkSock [] [0]%Z false) "Ok" 0 [] eq_refl eq_refl eq_refl).
  - exact (send_first_write_refused (Response.set_body Response.fresh "hi") Request.fresh
             (mkSock [] [-1]%Z false) "Ok" (-1) [] eq_refl eq_refl eq_refl).
Defined.

(** ** serverRequestHandler *)

Lemma parsed_nonempty_eq (data : string) :
  httpRequestParse Request.fresh data = (true, parsed Request.fresh data).
Proof. reflexivity. Qed.

(** The three ways a run of the handler can go, for data that was read. *)
Lemma handler_cases (cb : option callback_t) (data : string) (sock : Sock) :
  data <> "" ->
  serverRequestHandler cb (Some data) sock =
  let req := parsed Request.fresh data in
  if Request.hasError req
  then
    res <- Response.errorPage (Response.set_statusCode Response.fresh 400) ;;
    out <- Response.send res req sock ;;
    let '(res, sock, _) := out in
    Ok (mkHandled (close sock) req res false)
  else
    match cb with
    | None => Ok (mkHandled (close sock) req Response.fresh false)
    | Some f =>
        out <- f req Response.fresh sock ;;
        let '(req, res, sock) := out in
        Ok (mkHandled (close sock) req res true)
    end.
Proof.
  intros Hd. unfold serverRequestHandler.
  destruct data as [|c data]; [contradiction|].
  cbn [String.length Nat.eqb]. rewrite parsed_nonempty_eq. reflexivity.
Qed.

(** X7. Every run of the handler that comes to an end has closed the
    socket, whatever was received, whatever the callback did and whatever
    the kernel answered to the writes. *)
Theorem handler_always_closes
    (cb : option callback_t) (received : option string) (sock : Sock) (out : handled) :
  serverRequestHandler cb received sock = Ok out ->
  closed (h_sock out) = true.
Proof.
  destruct received as [data|]; [|intros H; inversion H; reflexivity].
  destruct (string_dec data "") as [E | E].
  - subst data. intros H. inversion H. reflexivity.
  - rewrite (handler_cases cb data sock E). cbv zeta.
    destruct (Request.hasError (parsed Request.fresh data)).
    + destruct (Response.errorPage _) as [res|]; [|discriminate]. cbn [bind].
      destruct (Response.send _ _ _) as [[[res' s'] b]|]; [|discriminate]. cbn [bind].
      intros H. inversion H. reflexivity.
    + destruct cb as [f|]; [|intros H; inversion H; reflexivity].
      destruct (f _ _ _) as [[[req' res'] s']|]; [|discriminate]. cbn [bind].
      intros H. inversion H. reflexivity.
Qed.

(** The request "GET / HTTP/1.1" on a socket whose kernel refuses every
    write: the handler of example.cc still ends with the socket closed. *)
Lemma handler_always_closes_witness :
  exists out,
    serverRequestHandler (Some example_callback)
      (Some ("GET / HTTP/1.1" ++ CRLF ++ CRLF)) (mkSock [] [-1]%Z false) = Ok out /\
    closed (h_sock out) = true.
Proof.
  eexists. split; [reflexivity|].
  apply (handler_always_closes (Some example_callback)
           (Some ("GET / HTTP/1.1" ++ CRLF ++ CRLF)) (mkSock [] [-1]%Z false)).
  reflexivity.
Defined.

(** X8. The handler calls the application callback exactly when data was
    read, the parsed request carries no error and a callback is registered;
    the callback is then handed the parsed request, a fresh response and
    the socket as it was. When nothing was read (a closed peer or a failed
    read), or when the request is sound and no callback is registered, the
    handler writes nothing: it only closes the socket. *)
Theorem handler_dispatch
    (cb : option callback_t) (received : option string) (sock : Sock) (out : handled) :
  serverRequestHandler cb received sock = Ok out ->
  (h_called out = true <->
   exists data f,
     received = Some data /\ data <> "" /\
     Request.hasError (parsed Request.fresh data) = false /\
     cb = Some f /\
     exists req res sock',
       f (parsed Request.fresh data) Response.fresh sock = Ok (req, res, sock') /\
       out = mkHandled (close sock') req res true) /\
  ((received = None \/ received = Some "" \/
    exists data, received = Some data /\
                 Request.hasError (parsed Request.fresh data) = false /\ cb = None) ->
   h_sock out = close sock /\ h_res out = Response.fresh /\ h_called out = false).
Proof.
  intros H.
  destruct received as [data|].
  2:{ inversion H; subst; simpl. split.
      - split; [discriminate|]. intros (d & f & X & _). discriminate X.
      - auto. }
  destruct (string_dec data "") as [E | E].
  { subst data. inversion H; subst; simpl. split.
    - split; [discriminate|]. intros (d & f & X & Y & _). inversion X; subst. contradiction.
    - auto. }
  rewrite (handler_cases cb data sock E) in H. cbv zeta in H.
  destruct (Request.hasError (parsed Request.fresh data)) eqn:He.
  - destruct (Response.errorPage _) as [res|]; [|discriminate]. cbn [bind] in H.
    destruct (Response.send _ _ _) as [[[res' s'] b]|]; [|discriminate]. cbn [bind] in H.
    inversion H; subst; simpl. split.
    + split; [discriminate|].
      intros (d & f & X & _ & Y & _). inversion X; subst. congruence.
    + intros [X | [X | (d & X & Y & _)]];
        [discriminate X | inversion X; subst; contradiction
        | inversion X; subst; congruence].
  - destruct cb as [f|].
    + destruct (f _ _ _) as [[[req' res'] s']|] eqn:Ef; [|discriminate]. cbn [bind] in H.
      inversion H; subst; simpl. split.
      * split; [|reflexivity]. intros _.
        exists data, f. do 4 (split; [auto|]).
        exists req', res', s'. auto.
      * intros [X | [X | (d & _ & _ & X)]];
          [discriminate X | inversion X; subst; contradiction | discriminate X].
    + inversion H; subst; simpl. split.
      * split; [discriminate|]. intros (d & f & _ & _ & _ & X & _). discriminate X.
      * auto.
Qed.

(** A sound request with the handler of example.cc registered, and the
    same request with no callback registered. *)
Lemma handler_dispatch_witness :
  (exists out,
     serverRequestHandler (Some example_callback)
       (Some ("GET / HTTP/1.1" ++ CRLF ++ CRLF)) (mkSock [] [] false) = Ok out /\
     h_called out = true) /\
  (exists out,
     serverRequestHandler None
       (Some ("GET / HTTP/1.1" ++ CRLF ++ CRLF)) (mkSock [] [] false) = Ok out /\
     h_sock out = close (mkSock [] [] false) /\ h_called out = false).
Proof.
  split.
  - eexists. split; [reflexivity|]. reflexivity.
  - eexists. split; [reflexivity|].
    destruct (handler_dispatch None (Some ("GET / HTTP/1.1" ++ CRLF ++ CRLF))
                (mkSock [] [] false) _ eq_refl) as [_ H].
    destruct H as (H1 & _ & H3).
    + right. right. eexists. split; [reflexivity|]. split; reflexivity.
    + split; [exact H1 | exact H3].
Defined.

(** ** The handler of example.cc *)

Lemma example_callback_cases (req : Request.t) (sock : Sock) :
  exists res sock',
    example_callback req Response.fresh sock = Ok (req, res, sock') /\
    StrMap.find "Server" (Response.headers res) = Some "ExampleHTTPServer" /\
    ((((Request.url req =? "/") || (Request.url req =? "/index.cpp")) = true /\
      Response.statusCode res = 200%Z /\
      StrMap.find "Content-Type" (Response.headers res) = Some "text/plain")
     \/
     (((Request.url req =? "/") || (Request.url req =? "/index.cpp")) = false /\
      Response.statusCode res = 404%Z /\
      Response.body res = error_body 404 "Not Found" /\
      StrMap.find "Content-Type" (Response.headers res) = Some "text/html")).
Proof.
  unfold example_callback.
  set (res0 := Response.header
                 (Response.header (Response.header Response.fresh
                    "Content-Type" "text/plain") "Server" "ExampleHTTPServer")
                 "Cache-Control" "no-cache, no-store, must-revalidate").
  destruct ((Request.url req =? "/") || (Request.url req =? "/index.cpp")) eqn:Eu.
  - cbn [bind].
    match goal with
    | |- context [Response.send ?r req sock] =>
        destruct (send_defined r req sock "Ok" eq_refl) as (s' & b & Hs); rewrite Hs
    end.
    cbn [bind]. eexists. eexists. split; [reflexivity|].
    split; [reflexivity|]. left. repeat split; reflexivity.
  - rewrite (errorPage_known (Response.set_statusCode res0 404) "Not Found" eq_refl).
    cbn [bind].
    match goal with
    | |- context [Response.send ?r req sock] =>
        destruct (send_defined r req sock "Not Found" eq_refl) as (s' & b & Hs); rewrite Hs
    end.
    cbn [bind]. eexists. eexists. split; [reflexivity|].
    split; [reflexivity|]. right. repeat split; reflexivity.
Qed.

(** X9. With the handler of example.cc registered, every run of the
    connection handler on data that was read is defined and ends with the
    socket closed, and the response it leaves has the status 400 exactly
    when the request is in error, 200 when the request is sound and its url
    is "/" or "/index.cpp", and 404 with the error page for any other url. *)
Theorem example_server_answers
    (data : string) (sock : Sock) :
  data <> "" ->
  let req := parsed Request.fresh data in
  exists out,
    serverRequestHandler (Some example_callback) (Some data) sock = Ok out /\
    closed (h_sock out) = true /\
    h_req out = req /\
    ((Request.hasError req = true /\
      Response.statusCode (h_res out) = 400%Z /\ h_called out = false)
     \/
     (Request.hasError req = false /\
      ((Request.url req =? "/") || (Request.url req =? "/index.cpp")) = true /\
      Response.statusCode (h_res out) = 200%Z /\ h_called out = true)
     \/
     (Request.hasError req = false /\
      ((Request.url req =? "/") || (Request.url req =? "/index.cpp")) = false /\
      Response.statusCode (h_res out) = 404%Z /\
      Response.body (h_res out) = error_body 404 "Not Found" /\
      h_called out = true)).
Proof.
  intros Hd req.
  destruct (Request.hasError req) eqn:He.
  - destruct (handler_on_error (Some example_callback) sock data Hd He)
      as (res & s' & b & H1 & H2 & _).
    eexists. split; [exact H1|]. split; [reflexivity|]. split; [reflexivity|].
    left. auto.
  - rewrite (handler_cases _ data sock Hd). cbv zeta. fold req. rewrite He.
    destruct (example_callback_cases req sock) as (res & s' & H1 & _ & H2).
    rewrite H1. cbn [bind].
    eexists. split; [reflexivity|]. split; [reflexivity|]. split; [reflexivity|].
    right. destruct H2 as [(A & B & _) | (A & B & C & _)]; [left | right]; simpl; auto.
Qed.

(** A request for "/nowhere". *)
Lemma example_server_answers_witness :
  ("GET /nowhere HTTP/1.1" ++ CRLF ++ CRLF <> "") /\
  exists out,
    serverRequestHandler (Some example_callback)
      (Some ("GET /nowhere HTTP/1.1" ++ CRLF ++ CRLF)) (mkSock [] [] false) = Ok out /\
    closed (h_sock out) = true /\
    Response.statusCode (h_res out) = 404%Z.
Proof.
  assert (Hd : "GET /nowhere HTTP/1.1" ++ CRLF ++ CRLF <> "") by discriminate.
  split; [exact Hd|].
  destruct (example_server_answers ("GET /nowhere HTTP/1.1" ++ CRLF ++ CRLF)
              (mkSock [] [] false) Hd) as (out & H1 & H2 & _ & H3).
  exists out. split; [exact H1|]. split; [exact H2|].
  destruct H3 as [(X & _) | [(_ & X & _) | (_ & _ & X & _)]];
    [discriminate X | discriminate X | exact X].
Defined.

(** ** More on the parser *)

Lemma parse_step_past_url (c : ascii) (req : Request.t) (l : locals) :
  past_url l ->
  past_url (snd (parse_step c (req, l))) /\
  Request.method (fst (parse_step c (req, l))) = Request.method req /\
  Request.url (fst (parse_step c (req, l))) = Request.url req /\
  Request.queryString (fst (parse_step c (req, l))) = Request.queryString req.
Proof.
  unfold past_url. intros [H | [H | [H | H]]]; unfold parse_step; rewrite H; simpl;
    repeat match goal with
    | |- context [if ?b then _ else _] => destruct b eqn:?; simpl
    | |- context [let (_, _) := ?p in _] => destruct p eqn:?; simpl
    end; auto 10.
Qed.

Lemma parse_loop_past_url (buffer : string) (req : Request.t) (l : locals) :
  past_url l ->
  Request.method (fst (parse_loop buffer (req, l))) = Request.method req /\
  Request.url (fst (parse_loop buffer (req, l))) = Request.url req /\
  Request.queryString (fst (parse_loop buffer (req, l))) = Request.queryString req.
Proof.
  revert req l. induction buffer as [|c rest IH]; intros req l H; simpl; [auto|].
  destruct (parse_step_past_url c req l H) as (H0 & H1 & H2 & H3).
  destruct (parse_step c (req, l)) as [req1 l1]. simpl in *.
  destruct (IH req1 l1 H0) as (E1 & E2 & E3).
  rewrite E1, E2, E3. auto.
Qed.

Lemma parse_step_past_protocol (c : ascii) (req : Request.t) (l : locals) :
  past_protocol l ->
  past_protocol (snd (parse_step c (req, l))) /\
  Request.hasError (fst (parse_step c (req, l))) = Request.hasError req.
Proof.
  unfold past_protocol. intros [H | [H | H]]; unfold parse_step; rewrite H; simpl;
    repeat match goal with
    | |- context [if ?b then _ else _] => destruct b eqn:?; simpl
    | |- context [let (_, _) := ?p in _] => destruct p eqn:?; simpl
    end; auto.
Qed.

Lemma parse_loop_past_protocol (buffer : string) (req : Request.t) (l : locals) :
  past_protocol l ->
  Request.hasError (fst (parse_loop buffer (req, l))) = Request.hasError req.
Proof.
  revert req l. induction buffer as [|c rest IH]; intros req l H; simpl; [reflexivity|].
  destruct (parse_step_past_protocol c req l H) as [H1 H2].
  destruct (parse_step c (req, l)) as [req1 l1]. simpl in *.
  now rewrite (IH req1 l1 H1).
Qed.

Lemma digit_value_one (d : ascii) : (digit_value d =? 1)%Z = (d =? "1")%char.
Proof. destruct d as [[] [] [] [] [] [] [] []]; reflexivity. Qed.

Lemma digit_value_range (d : ascii) : isdigit d = true -> (0 <= digit_value d <= 9)%Z.
Proof.
  unfold isdigit, digit_value. intros H.
  apply andb_true_iff in H as [H1 H2]. apply N.leb_le in H1, H2. lia.
Qed.

(** X10. A request line is taken apart at its delimiters, and what follows
    the second space never changes the three tokens: the method is the text
    before the first space; the url is the text up to the next space or
    '?', without the four filtered characters; the query string is the text
    between the '?' and the next space, filtered alike, and is left as it
    was when the url has no '?'. *)
Theorem request_line_fields (req : Request.t) (m u q rest : string) :
  string_forallb (not_char SP) m = true ->
  string_forallb url_char u = true ->
  string_forallb (not_char SP) q = true ->
  let r1 := parsed req (m ++ String SP (u ++ String SP rest)) in
  let r2 := parsed req (m ++ String SP (u ++ String "?" (q ++ String SP rest))) in
  (Request.method r1 = m /\
   Request.url r1 = string_filter kept_char u /\
   Request.queryString r1 = Request.queryString req) /\
  (Request.method r2 = m /\
   Request.url r2 = string_filter kept_char u /\
   Request.queryString r2 = string_filter kept_char q).
Proof.
  intros Hm Hu Hq r1 r2. subst r1 r2.
  assert (Em : forall s, m ++ String SP s = (m ++ String SP "") ++ s).
  { intros s. now rewrite append_assoc. }
  assert (Eu : forall d s, u ++ String d s = (u ++ String d "") ++ s).
  { intros d s. now rewrite append_assoc. }
  assert (Eq : forall s, q ++ String SP s = (q ++ String SP "") ++ s).
  { intros s. now rewrite append_assoc. }
  unfold parsed, httpRequestParse; simpl. split.
  - match goal with
    | |- context [parse_finish ?x] =>
        destruct (parse_finish_fields x) as (E1 & E2 & E3 & _); rewrite E1, E2, E3
    end.
    rewrite Em, parse_loop_app, after_method, Eu, parse_loop_app, after_url by auto.
    simpl.
    match goal with
    | |- context [parse_loop rest (?r, ?l)] =>
        destruct (parse_loop_past_url rest r l (or_introl eq_refl)) as (F1 & F2 & F3)
    end.
    rewrite F1, F2, F3. auto.
  - match goal with
    | |- context [parse_finish ?x] =>
        destruct (parse_finish_fields x) as (E1 & E2 & E3 & _); rewrite E1, E2, E3
    end.
    rewrite Em, parse_loop_app, after_method, Eu, parse_loop_app, after_url by auto.
    simpl. rewrite Eq, parse_loop_app, after_query by auto.
    simpl.
    match goal with
    | |- context [parse_loop rest (?r, ?l)] =>
        destruct (parse_loop_past_url rest r l (or_introl eq_refl)) as (F1 & F2 & F3)
    end.
    rewrite F1, F2, F3. auto.
Qed.

(** A request line with and without a query, followed by a header. *)
Lemma request_line_fields_witness :
  (string_forallb (not_char SP) "POST" = true /\
   string_forallb url_char "/a/<b>" = true /\
   string_forallb (not_char SP) "x=1&y=?" = true) /\
  (let r := parsed Request.fresh ("POST /a/<b> HTTP/1.1" ++ CRLF ++ "Host: h" ++ CRLF) in
   Request.method r = "POST" /\ Request.url r = "/a/b" /\ Request.queryString r = "") /\
  (let r := parsed Request.fresh
              ("POST /a/<b>?x=1&y=? HTTP/1.1" ++ CRLF ++ "Host: h" ++ CRLF) in
   Request.method r = "POST" /\ Request.url r = "/a/b" /\
   Request.queryString r = "x=1&y=?").
Proof.
  split; [repeat split|].
  exact (request_line_fields Request.fresh "POST" "/a/<b>" "x=1&y=?"
           ("HTTP/1.1" ++ CRLF ++ "Host: h" ++ CRLF) eq_refl eq_refl eq_refl).
Defined.

(** X11. For a request line whose version is one digit, a dot and
    anything, parsed into a request that carries no error, the error flag
    ends up clear exactly when the protocol token is "HTTP" and the major
    digit is 1; the minor version and the rest of the buffer play no part. *)
Theorem request_line_error_flag
    (req : Request.t) (m u tok rest : string) (d : ascii) :
  Request.hasError req = false ->
  string_forallb (not_char SP) m = true ->
  string_forallb url_char u = true ->
  string_forallb (not_char "/") tok = true ->
  isdigit d = true ->
  let r :=
    parsed req
      (m ++ String SP (u ++ String SP (tok ++ String "/" (String d (String "." rest))))) in
  Request.hasError r = negb ((tok =? "HTTP") && (d =? "1")%char) /\
  Request.httpMajorVersion r = digit_value d.
Proof.
  intros He Hm Hu Ht Hd r. subst r.
  assert (Em : forall s, m ++ String SP s = (m ++ String SP "") ++ s).
  { intros s. now rewrite append_assoc. }
  assert (Eu : forall s, u ++ String SP s = (u ++ String SP "") ++ s).
  { intros s. now rewrite append_assoc. }
  unfold parsed, httpRequestParse. cbn [snd].
  rewrite Em, parse_loop_app, after_method, Eu, parse_loop_app, after_url by auto.
  cbn [Ascii.eqb Bool.eqb tmp isKey]. rewrite parse_loop_app.
  rewrite (run_PROTOCOL tok) by auto. cbn [tmp isKey append parse_loop].
  set (r0 := Request.set_url (Request.set_method req m) (string_filter kept_char u)).
  set (r1 := if negb (tok =? "HTTP") then Request.set_hasError r0 true else r0).
  assert (S1 : parse_step "/" (r0, mkLocals tok PARSER_STATE_PROTOCOL true)
               = (r1, mkLocals "" PARSER_STATE_MAJOR true)) by reflexivity.
  rewrite S1.
  assert (S2 : parse_step d (r1, mkLocals "" PARSER_STATE_MAJOR true)
               = (Request.set_httpMajorVersion r1 (digit_value d),
                  mkLocals "" PARSER_STATE_MAJOR true)).
  { unfold parse_step. simpl. now rewrite Hd. }
  rewrite S2.
  assert (S3 : parse_step "." (Request.set_httpMajorVersion r1 (digit_value d),
                               mkLocals "" PARSER_STATE_MAJOR true)
               = (Request.set_httpMajorVersion r1 (digit_value d),
                  mkLocals "" PARSER_STATE_MINOR true)) by reflexivity.
  rewrite S3.
  pose proof (parse_loop_past_protocol rest
                (Request.set_httpMajorVersion r1 (digit_value d))
                (mkLocals "" PARSER_STATE_MINOR true) (or_intror (or_introl eq_refl))) as P1.
  pose proof (parse_loop_past_major rest
                (Request.set_httpMajorVersion r1 (digit_value d))
                (mkLocals "" PARSER_STATE_MINOR true) (or_introl eq_refl)) as P2.
  destruct (parse_loop rest _) as [rf lf]. cbn [fst] in *.
  simpl in P1, P2.
  unfold parse_finish. rewrite P2, digit_value_one.
  assert (E1 : Request.hasError r1 = negb (tok =? "HTTP")).
  { unfold r1. destruct (tok =? "HTTP"); simpl; [exact He | reflexivity]. }
  rewrite E1 in P1.
  destruct (d =? "1")%char; simpl.
  - split; [|exact P2]. rewrite P1. now rewrite andb_true_r.
  - split; [|exact P2]. now rewrite andb_false_r.
Qed.

(** "GET / HTTP/1.7": no error; "GET / HTTP/2.0": error. *)
Lemma request_line_error_flag_witness :
  (Request.hasError Request.fresh = false /\
   string_forallb (not_char SP) "GET" = true /\
   string_forallb url_char "/" = true /\
   string_forallb (not_char "/") "HTTP" = true /\
   isdigit "1" = true /\ isdigit "2" = true) /\
  Request.hasError (parsed Request.fresh ("GET / HTTP/1.7" ++ CRLF ++ CRLF)) = false /\
  Request.hasError (parsed Request.fresh ("GET / HTTP/2.0" ++ CRLF ++ CRLF)) = true.
Proof.
  split; [repeat split|]. split.
  - exact (proj1 (request_line_error_flag Request.fresh "GET" "/" "HTTP"
                    ("7" ++ CRLF ++ CRLF) "1" eq_refl eq_refl eq_refl eq_refl eq_refl)).
  - exact (proj1 (request_line_error_flag Request.fresh "GET" "/" "HTTP"
                    ("0" ++ CRLF ++ CRLF) "2" eq_refl eq_refl eq_refl eq_refl eq_refl)).
Defined.

(** X12. Once set, the error flag survives every further call of the
    parser on the same request, whatever the buffer. *)
Theorem error_flag_is_sticky (req : Request.t) (buffer : string) :
  Request.hasError req = true ->
  fst (httpRequestParse req buffer) = true /\
  Request.hasError (parsed req buffer) = true.
Proof.
  intros H. split; [reflexivity|].
  unfold parsed, httpRequestParse; simpl.
  apply parse_finish_hasError. left.
  now apply (parse_loop_hasError buffer (req, locals_init)).
Qed.

(** A request in error after "GET / FOO/1.1", parsed again with a sound
    request. *)
Lemma error_flag_is_sticky_witness :
  Request.hasError (parsed Request.fresh ("GET / FOO/1.1" ++ CRLF)) = true /\
  Request.hasError
    (parsed (parsed Request.fresh ("GET / FOO/1.1" ++ CRLF))
       ("GET / HTTP/1.1" ++ CRLF)) = true.
Proof.
  split; [reflexivity|].
  exact (proj2 (error_flag_is_sticky (parsed Request.fresh ("GET / FOO/1.1" ++ CRLF))
                  ("GET / HTTP/1.1" ++ CRLF) eq_refl)).
Defined.

Lemma parse_step_version_in_range (c : ascii) (req : Request.t) (l : locals) :
  version_in_range req -> version_in_range (fst (parse_step c (req, l))).
Proof.
  unfold version_in_range. intros [H1 H2]. unfold parse_step.
  destruct (state l); simpl;
    repeat match goal with
    | |- context [if ?b then _ else _] => destruct b eqn:?; simpl
    | |- context [let (_, _) := ?p in _] => destruct p eqn:?; simpl
    end; auto using digit_value_range.
Qed.

(** X13. The two version fields never leave the range 0..9: a request
    whose fields are in that range keeps them there through any buffer. *)
Theorem version_fields_stay_digits (req : Request.t) (buffer : string) :
  version_in_range req -> version_in_range (parsed req buffer).
Proof.
  intros H. unfold parsed, httpRequestParse; simpl.
  assert (G : version_in_range (fst (parse_loop buffer (req, locals_init)))).
  { generalize locals_init. revert req H.
    induction buffer as [|c rest IH]; intros req H l; simpl; [exact H|].
    pose proof (parse_step_version_in_range c req l H) as H1.
    destruct (parse_step c (req, l)) as [req1 l1]. now apply IH. }
  unfold version_in_range in *.
  destruct (parse_finish_fields (fst (parse_loop buffer (req, locals_init))))
    as (_ & _ & _ & E1 & E2 & _).
  now rewrite E1, E2.
Qed.

(** A fresh request and a version token of many digits. *)
Lemma version_fields_stay_digits_witness :
  version_in_range Request.fresh /\
  version_in_range (parsed Request.fresh ("GET / HTTP/123456.7890" ++ CRLF)).
Proof.
  assert (H : version_in_range Request.fresh) by (unfold version_in_range; simpl; lia).
  split; [exact H|].
  exact (version_fields_stay_digits Request.fresh ("GET / HTTP/123456.7890" ++ CRLF) H).
Defined.

(** ** Header lines *)

Lemma value_acc_nonempty (raw v : string) :
  v <> "" -> value_acc v raw = v ++ string_filter (not_char CR) raw.
Proof.
  revert v. induction raw as [|c raw IH]; intros v Hv; simpl.
  - now rewrite append_nil_r.
  - unfold not_char at 1. destruct (c =? CR)%char; simpl; [now apply IH|].
    destruct v as [|x v]; [contradiction|]. simpl.
    rewrite IH by (unfold push_back; simpl; discriminate).
    unfold push_back. simpl. now rewrite append_assoc.
Qed.

Lemma value_acc_header_value (raw : string) : value_acc "" raw = header_value raw.
Proof.
  unfold header_value. induction raw as [|c raw IH]; simpl; [reflexivity|].
  unfold not_char at 1. destruct (c =? CR)%char eqn:Ec; simpl; [exact IH|].
  destruct (c =? SP)%char eqn:Es; simpl; [exact IH|].
  rewrite value_acc_nonempty by (unfold push_back; simpl; discriminate).
  reflexivity.
Qed.

Lemma set_headers_same (req : Request.t) : Request.set_headers req (Request.headers req) = req.
Proof. destruct req; reflexivity. Qed.

Lemma map_index_present (m : StrMap.t string) (k v : string) :
  StrMap.find k m = Some v -> map_index m k = (m, v).
Proof. intros H. unfold map_index. now rewrite H. Qed.

(** The value mode of the HEADERS state, over the characters of one value. *)
Lemma run_HEADERS_value (raw : string) :
  forall (req : Request.t) (l : locals) (v : string),
    state l = PARSER_STATE_HEADERS ->
    isKey l = false ->
    string_forallb (not_char LF) raw = true ->
    StrMap.find (tmp l) (Request.headers req) = Some v ->
    exists h,
      parse_loop raw (req, l) = (Request.set_headers req h, l) /\
      StrMap.Equal h (StrMap.add (tmp l) (value_acc v raw) (Request.headers req)).
Proof.
  induction raw as [|c raw IH]; intros req l v Hs Hi Hr Hf.
  - exists (Request.headers req). simpl. rewrite set_headers_same. split; [reflexivity|].
    intros y. rewrite StrMapFacts.add_o.
    destruct (String_as_OT.eq_dec (tmp l) y) as [E | E]; [now subst | reflexivity].
  - simpl in Hr. apply andb_true_iff in Hr as [Hc Hr].
    unfold not_char in Hc. apply negb_true_iff in Hc.
    cbn [parse_loop value_acc].
    unfold parse_step. rewrite Hs, Hc, Hi. cbn [andb].
    destruct (c =? CR)%char; [now apply IH|].
    rewrite (map_index_present _ _ _ Hf).
    destruct ((String.length v =? 0)%nat && (c =? SP)%char).
    + rewrite set_headers_same. now apply IH.
    + rewrite (map_index_present _ _ _ Hf).
      set (req1 := Request.set_headers req
                     (StrMap.add (tmp l) (push_back v c) (Request.headers req))).
      destruct (IH req1 l (push_back v c) Hs Hi Hr) as (h & E1 & E2).
      { unfold req1. simpl. now rewrite StrMapFacts.add_eq_o. }
      exists h. split; [exact E1|].
      intros y. rewrite (E2 y). unfold req1. simpl.
      rewrite !StrMapFacts.add_o.
      destruct (String_as_OT.eq_dec (tmp l) y); reflexivity.
Qed.

(** One header line, from the start of a line to its line feed. *)
Lemma run_header_line (req : Request.t) (l : locals) (k raw : string) :
  state l = PARSER_STATE_HEADERS ->
  isKey l = true ->
  tmp l = "" ->
  string_forallb (fun c => not_char LF c && not_char ":" c) k = true ->
  string_forallb (not_char LF) raw = true ->
  exists h,
    parse_loop (k ++ String ":" (raw ++ String LF "")) (req, l)
      = (Request.set_headers req h, mkLocals "" PARSER_STATE_HEADERS true) /\
    StrMap.Equal h (StrMap.add (strtolower k) (header_value raw) (Request.headers req)).
Proof.
  intros Hs Hi Ht Hk Hr.
  rewrite parse_loop_app, (run_HEADERS_key k) by assumption.
  rewrite Ht. cbn [append parse_loop].
  set (key := strtolower k).
  set (req1 := Request.set_headers req (StrMap.add key "" (Request.headers req))).
  assert (S1 : parse_step ":" (req, mkLocals k PARSER_STATE_HEADERS true)
               = (req1, mkLocals key PARSER_STATE_HEADERS false)) by reflexivity.
  rewrite S1, parse_loop_app.
  destruct (run_HEADERS_value raw req1 (mkLocals key PARSER_STATE_HEADERS false) ""
              eq_refl eq_refl Hr) as (h & E1 & E2).
  { unfold req1. simpl. now rewrite StrMapFacts.add_eq_o. }
  rewrite E1. exists h. split; [reflexivity|].
  intros y. rewrite (E2 y). unfold req1. simpl.
  rewrite value_acc_header_value, !StrMapFacts.add_o.
  destruct (String_as_OT.eq_dec key y); reflexivity.
Qed.

(** X14. A header line "name:value" read from the start of a line
    registers the lower-cased name with the value stripped of its leading
    spaces and of every carriage return, replaces any value the name had,
    leaves every other header and every other field of the request alone,
    and puts the parser back at the start of a line. *)
Theorem header_line_is_registered (req : Request.t) (pre k raw : string) :
  snd (parse_loop pre (req, locals_init)) = mkLocals "" PARSER_STATE_HEADERS true ->
  string_forallb (fun c => not_char LF c && not_char ":" c) k = true ->
  string_forallb (not_char LF) raw = true ->
  let before := parsed req pre in
  let buffer := pre ++ k ++ String ":" (raw ++ String LF "") in
  StrMap.find (strtolower k) (Request.headers (parsed req buffer))
    = Some (header_value raw) /\
  (forall k', k' <> strtolower k ->
     StrMap.find k' (Request.headers (parsed req buffer))
       = StrMap.find k' (Request.headers before)) /\
  Request.set_headers (parsed req buffer) (Request.headers before) = before /\
  snd (parse_loop buffer (req, locals_init)) = mkLocals "" PARSER_STATE_HEADERS true.
Proof.
  intros Hl Hk Hr before buffer. subst before buffer.
  unfold parsed, httpRequestParse. cbn [snd].
  rewrite parse_loop_app.
  destruct (parse_loop pre (req, locals_init)) as [r0 l0]. cbn [snd fst] in *. subst l0.
  destruct (run_header_line r0 (mkLocals "" PARSER_STATE_HEADERS true) k raw
              eq_refl eq_refl eq_refl Hk Hr) as (h & E1 & E2).
  rewrite E1. cbn [fst snd].
  assert (F : parse_finish (Request.set_headers r0 h)
              = Request.set_headers (parse_finish r0) h).
  { unfold parse_finish. simpl. destruct (negb _); reflexivity. }
  rewrite F.
  destruct (parse_finish_fields r0) as (_ & _ & _ & _ & _ & Eh).
  split; [|split; [|split; [|reflexivity]]].
  - simpl. rewrite (E2 (strtolower k)). now rewrite StrMapFacts.add_eq_o.
  - intros k' Hk'. simpl. rewrite (E2 k'), Eh.
    now rewrite StrMapFacts.add_neq_o by congruence.
  - destruct (parse_finish r0); reflexivity.
Qed.

(** The line "Host:   a b" with a carriage return, after another header. *)
Lemma header_line_is_registered_witness :
  (snd (parse_loop ("GET / HTTP/1.1" ++ CRLF ++ "Accept: x" ++ CRLF)
          (Request.fresh, locals_init))
     = mkLocals "" PARSER_STATE_HEADERS true /\
   string_forallb (fun c => not_char LF c && not_char ":" c) "Host" = true /\
   string_forallb (not_char LF) ("   a b" ++ String CR "") = true) /\
  (let r := parsed Request.fresh
              ("GET / HTTP/1.1" ++ CRLF ++ "Accept: x" ++ CRLF ++ "Host:   a b" ++ CRLF) in
   StrMap.find "host" (Request.headers r) = Some "a b" /\
   StrMap.find "accept" (Request.headers r) = Some "x").
Proof.
  split; [repeat split|].
  destruct (header_line_is_registered Request.fresh
              ("GET / HTTP/1.1" ++ CRLF ++ "Accept: x" ++ CRLF) "Host"
              ("   a b" ++ String CR "") eq_refl eq_refl eq_refl) as (H1 & H2 & _).
  split; [exact H1|].
  assert (Hn : "accept" <> strtolower "Host") by discriminate.
  exact (H2 "accept" Hn).
Defined.

(** X15. A line without a colon read from the start of a line, such as the
    blank line that ends the header block, registers nothing and leaves the
    parser at the start of a line in the HEADERS state: the parser does not
    stop at the blank line, and whatever follows is read as header lines. *)
Theorem line_without_colon_is_dropped (req : Request.t) (pre line : string) :
  snd (parse_loop pre (req, locals_init)) = mkLocals "" PARSER_STATE_HEADERS true ->
  string_forallb (fun c => not_char LF c && not_char ":" c) line = true ->
  parse_loop (pre ++ line ++ String LF "") (req, locals_init)
    = parse_loop pre (req, locals_init) /\
  parsed req (pre ++ line ++ String LF "") = parsed req pre.
Proof.
  intros Hl Hk.
  assert (E : parse_loop (pre ++ line ++ String LF "") (req, locals_init)
              = parse_loop pre (req, locals_init)).
  { rewrite parse_loop_app.
    destruct (parse_loop pre (req, locals_init)) as [r0 l0]. cbn [snd] in Hl. subst l0.
    rewrite parse_loop_app, (run_HEADERS_key line) by auto. reflexivity. }
  split; [exact E|].
  unfold parsed, httpRequestParse. cbn [snd]. now rewrite E.
Qed.

(** The blank line after the headers, and a body line with a colon after
    it, which ends up among the headers. *)
Lemma line_without_colon_is_dropped_witness :
  (snd (parse_loop ("GET / HTTP/1.1" ++ CRLF ++ "Host: a" ++ CRLF)
          (Request.fresh, locals_init))
     = mkLocals "" PARSER_STATE_HEADERS true /\
   string_forallb (fun c => not_char LF c && not_char ":" c) (String CR "") = true) /\
  parsed Request.fresh ("GET / HTTP/1.1" ++ CRLF ++ "Host: a" ++ CRLF ++ CRLF)
    = parsed Request.fresh ("GET / HTTP/1.1" ++ CRLF ++ "Host: a" ++ CRLF) /\
  StrMap.elements
    (Request.headers
       (parsed Request.fresh
          ("GET / HTTP/1.1" ++ CRLF ++ "Host: a" ++ CRLF ++ CRLF ++ "user:me" ++ CRLF)))
    = [("host", "a"); ("user", "me")].
Proof.
  split; [repeat split|].
  split; [|reflexivity].
  exact (proj2 (line_without_colon_is_dropped Request.fresh
                  ("GET / HTTP/1.1" ++ CRLF ++ "Host: a" ++ CRLF) (String CR "")
                  eq_refl eq_refl)).
Defined.
